(** * Verification of [internal/lsp/protocol]: basic LSP structures

    The package [protocol] (files [basic.go] and [diagnostics.go]) declares
    the wire-format structures of the "Basic JSON Structures" part of the
    Language Server Protocol.  This development embeds

    - the Go types themselves as Rocq records (one module per struct, so
      that the field names of the source are kept),
    - the list of top-level declarations of the package, with the field
      types and JSON tags as they are written in the source, and
    - the framed JSON-RPC codec that carries these structures as payloads.
*)

From Stdlib Require Import ZArith List String Ascii Bool Lia.
From Stdlib Require Import Floats.PrimFloat.
From Stdlib Require Import DecimalFacts DecimalN DecimalZ.
From stdpp Require Import gmap strings.
Import ListNotations.

Local Open Scope string_scope.
Local Open Scope list_scope.

(* ===================================================================== *)
(** * Part I: the Go types as Rocq types                                  *)
(* ===================================================================== *)

(** Go's [float64] is IEEE 754 binary64, which is what Rocq's primitive
    floats are. *)
Definition float64 : Set := PrimFloat.float.

(** Go's [uint64]: a natural number below [2^64]. *)
Definition uint64 : Set := N.
Definition uint64_ok (n : uint64) : bool := (n <? 2 ^ 64)%N.

(** [type DocumentURI string] *)
Definition DocumentURI : Set := string.

Module Position.
Record t : Set := mk {
  Line : float64;
  Character : float64
}.
End Position.
Definition Position : Set := Position.t.

Module Range.
Record t : Set := mk { Start : Position; End : Position }.
End Range.
Definition Range : Set := Range.t.

Module Location.
Record t : Set := mk {
  URI : DocumentURI;
  Range : Range
}.
End Location.
Definition Location : Set := Location.t.

(** A Go pointer field [*T] is either [nil] or points to a [T]: [option]. *)
Module LocationLink.
Record t : Set := mk {
  OriginSelectionRange : option Range;
  TargetURI : string;
  TargetRange : Range;
  TargetSelectionRange : option Range
}.
End LocationLink.
Definition LocationLink : Set := LocationLink.t.

(** [type DiagnosticSeverity float64] *)
Definition DiagnosticSeverity : Set := float64.

Definition SeverityError : DiagnosticSeverity := 1%float.
Definition SeverityWarning : DiagnosticSeverity := 2%float.
Definition SeverityInformation : DiagnosticSeverity := 3%float.
Definition SeverityHint : DiagnosticSeverity := 4%float.

Module DiagnosticRelatedInformation.
Record t : Set := mk {
  Location : Location;
  Message : string
}.
End DiagnosticRelatedInformation.
Definition DiagnosticRelatedInformation : Set := DiagnosticRelatedInformation.t.

Module Diagnostic.
Record t : Set := mk {
  Range : Range;
  Severity : DiagnosticSeverity;
  Code : string;
  Source : string;
  Message : string;
  Related : list DiagnosticRelatedInformation
}.
End Diagnostic.
Definition Diagnostic : Set := Diagnostic.t.

(** [Arguments []interface{}]: the element type is Go's empty interface.
    The struct never looks inside such a value, so the record is
    parametric in the type [any] of dynamically typed values. *)
Module Command.
Record t (any : Type) : Type := mk {
  Title : string;
  Command : string;
  Arguments : list any
}.
Global Arguments mk {any} _ _ _.
Global Arguments Title {any} _.
Global Arguments Command {any} _.
Global Arguments Arguments {any} _.

(** Changing the representation of the dynamic values, field by field. *)
Definition map_any {A B : Type} (f : A -> B) (c : t A) : t B :=
  mk (Title c) (Command c) (List.map f (Arguments c)).
End Command.
Definition Command : Type -> Type := Command.t.

Module TextEdit.
Record t : Set := mk {
  Range : Range;
  NewText : string
}.
End TextEdit.
Definition TextEdit : Set := TextEdit.t.

Module TextDocumentIdentifier.
Record t : Set := mk { URI : DocumentURI }.
End TextDocumentIdentifier.
Definition TextDocumentIdentifier : Set := TextDocumentIdentifier.t.

Module TextDocumentItem.
Record t : Set := mk {
  URI : DocumentURI;
  LanguageID : string;
  Version : float64;
  Text : string
}.
End TextDocumentItem.
Definition TextDocumentItem : Set := TextDocumentItem.t.

(** The struct embeds [TextDocumentIdentifier]: Go stores the embedded
    struct as a field named after its type and promotes its fields. *)
Module VersionedTextDocumentIdentifier.
Record t : Set := mk {
  TextDocumentIdentifier : TextDocumentIdentifier;
  Version : option uint64
}.

(** The promoted selector [v.URI], which Go resolves to
    [v.TextDocumentIdentifier.URI]. *)
Definition URI (v : t) : DocumentURI :=
  TextDocumentIdentifier.URI (TextDocumentIdentifier v).
End VersionedTextDocumentIdentifier.
Definition VersionedTextDocumentIdentifier : Set :=
  VersionedTextDocumentIdentifier.t.

Module TextDocumentEdit.
Record t : Set := mk {
  TextDocument : VersionedTextDocumentIdentifier;
  Edits : list TextEdit
}.
End TextDocumentEdit.
Definition TextDocumentEdit : Set := TextDocumentEdit.t.

Module WorkspaceEdit.
Record t : Type := mk {
  Changes : gmap DocumentURI (list TextEdit);
  DocumentChanges : list TextDocumentEdit
}.
End WorkspaceEdit.
Definition WorkspaceEdit : Type := WorkspaceEdit.t.

Module TextDocumentPositionParams.
Record t : Set := mk {
  TextDocument : TextDocumentIdentifier;
  Position : Position
}.
End TextDocumentPositionParams.
Definition TextDocumentPositionParams : Set := TextDocumentPositionParams.t.

Module DocumentFilter.
Record t : Set := mk {
  Language : string;
  Scheme : string;
  Pattern : string
}.
End DocumentFilter.
Definition DocumentFilter : Set := DocumentFilter.t.

(** [type DocumentSelector []DocumentFilter] *)
Definition DocumentSelector : Set := list DocumentFilter.

(** [type MarkupKind string] *)
Definition MarkupKind : Set := string.

Definition PlainText : MarkupKind := "plaintext".
Definition Markdown : MarkupKind := "markdown".

Module MarkupContent.
Record t : Set := mk {
  Kind : MarkupKind;
  Value : string
}.
End MarkupContent.
Definition MarkupContent : Set := MarkupContent.t.

(** [diagnostics.go] *)
Module PublishDiagnosticsParams.
Record t : Set := mk {
  URI : DocumentURI;
  Diagnostics : list Diagnostic
}.
End PublishDiagnosticsParams.
Definition PublishDiagnosticsParams : Set := PublishDiagnosticsParams.t.

(** [const CodeRequestCancelled = -32800]: an untyped integer constant. *)
Definition CodeRequestCancelled : Z := (-32800)%Z.

(** The comment on [MarkupKind] reserves the kinds that start with [$]. *)
Definition starts_with_dollar (k : MarkupKind) : bool :=
  match k with
  | String c _ => Ascii.eqb c "$"%char
  | EmptyString => false
  end.

(** [encoding/json] leaves out a field tagged [omitempty] when it holds the
    zero value of its type; for a floating-point field, when it equals 0. *)
Definition omitted_float64 (x : float64) : bool := PrimFloat.eqb x 0%float.

(* ===================================================================== *)
(** * Part II: the declarations of the package                            *)
(* ===================================================================== *)

(** Type expressions as they occur in the source. *)
Inductive GoType : Set :=
| TString
| TFloat64
| TUint64
| TInterface                       (* interface{} *)
| TNamed (name : string)
| TPointer (elem : GoType)
| TSlice (elem : GoType)
| TMap (key elem : GoType).

(** A struct tag [`json:"name"`] or [`json:"name,omitempty"`]. *)
Record JsonTag : Set := mkTag {
  tag_name : string;
  tag_omitempty : bool
}.

(** A field of a struct.  An embedded field has no name of its own in the
    source: Go names it after its type. *)
Record Field : Set := mkField {
  field_name : string;
  field_type : GoType;
  field_embedded : bool;
  field_tag : option JsonTag
}.

Definition fld (name : string) (ty : GoType) (json : string) : Field :=
  mkField name ty false (Some (mkTag json false)).
Definition fld_omitempty (name : string) (ty : GoType) (json : string)
  : Field :=
  mkField name ty false (Some (mkTag json true)).
Definition embedded (ty : string) : Field :=
  mkField ty (TNamed ty) true None.

Inductive TypeSpec : Set :=
| Defined (underlying : GoType)       (* type T U *)
| Struct (fields : list Field).       (* type T struct { ... } *)

Inductive ConstExpr : Set :=
| IntLit (z : Z)
| StringLit (s : string).

(** The kinds of top-level declaration of a Go file. *)
Inductive Decl : Set :=
| ConstDecl (name : string) (typ : option string) (value : ConstExpr)
| TypeDecl (name : string) (spec : TypeSpec)
| VarDecl (name : string) (typ : GoType)
| FuncDecl (name : string)
| MethodDecl (receiver name : string).

Definition basic_go : list Decl := [
  ConstDecl "CodeRequestCancelled" None (IntLit (-32800));
  TypeDecl "DocumentURI" (Defined TString);
  TypeDecl "Position" (Struct [
    fld "Line" TFloat64 "line";
    fld "Character" TFloat64 "character" ]);
  TypeDecl "Range" (Struct [
    fld "Start" (TNamed "Position") "start";
    fld "End" (TNamed "Position") "end" ]);
  TypeDecl "Location" (Struct [
    fld "URI" (TNamed "DocumentURI") "uri";
    fld "Range" (TNamed "Range") "range" ]);
  TypeDecl "LocationLink" (Struct [
    fld_omitempty "OriginSelectionRange" (TPointer (TNamed "Range"))
      "originSelectionRange";
    fld "TargetURI" TString "targetUri";
    fld "TargetRange" (TNamed "Range") "targetRange";
    fld_omitempty "TargetSelectionRange" (TPointer (TNamed "Range"))
      "targetSeletionRange" ]);
  TypeDecl "Diagnostic" (Struct [
    fld "Range" (TNamed "Range") "range";
    fld_omitempty "Severity" (TNamed "DiagnosticSeverity") "severity";
    fld_omitempty "Code" TString "code";
    fld_omitempty "Source" TString "source";
    fld "Message" TString "message";
    fld_omitempty "Related" (TSlice (TNamed "DiagnosticRelatedInformation"))
      "relatedInformation" ]);
  TypeDecl "DiagnosticSeverity" (Defined TFloat64);
  ConstDecl "SeverityError" (Some "DiagnosticSeverity") (IntLit 1);
  ConstDecl "SeverityWarning" (Some "DiagnosticSeverity") (IntLit 2);
  ConstDecl "SeverityInformation" (Some "DiagnosticSeverity") (IntLit 3);
  ConstDecl "SeverityHint" (Some "DiagnosticSeverity") (IntLit 4);
  TypeDecl "DiagnosticRelatedInformation" (Struct [
    fld "Location" (TNamed "Location") "location";
    fld "Message" TString "message" ]);
  TypeDecl "Command" (Struct [
    fld "Title" TString "title";
    fld "Command" TString "command";
    fld_omitempty "Arguments" (TSlice TInterface) "arguments" ]);
  TypeDecl "TextEdit" (Struct [
    fld "Range" (TNamed "Range") "range";
    fld "NewText" TString "newText" ]);
  TypeDecl "TextDocumentEdit" (Struct [
    fld "TextDocument" (TNamed "VersionedTextDocumentIdentifier")
      "textDocument";
    fld "Edits" (TSlice (TNamed "TextEdit")) "edits" ]);
  TypeDecl "WorkspaceEdit" (Struct [
    fld_omitempty "Changes"
      (TMap (TNamed "DocumentURI") (TSlice (TNamed "TextEdit"))) "changes";
    fld_omitempty "DocumentChanges" (TSlice (TNamed "TextDocumentEdit"))
      "documentChanges" ]);
  TypeDecl "TextDocumentIdentifier" (Struct [
    fld "URI" (TNamed "DocumentURI") "uri" ]);
  TypeDecl "TextDocumentItem" (Struct [
    fld "URI" (TNamed "DocumentURI") "uri";
    fld "LanguageID" TString "languageId";
    fld "Version" TFloat64 "version";
    fld "Text" TString "text" ]);
  TypeDecl "VersionedTextDocumentIdentifier" (Struct [
    embedded "TextDocumentIdentifier";
    fld "Version" (TPointer TUint64) "version" ]);
  TypeDecl "TextDocumentPositionParams" (Struct [
    fld "TextDocument" (TNamed "TextDocumentIdentifier") "textDocument";
    fld "Position" (TNamed "Position") "position" ]);
  TypeDecl "DocumentFilter" (Struct [
    fld_omitempty "Language" TString "language";
    fld_omitempty "Scheme" TString "scheme";
    fld_omitempty "Pattern" TString "pattern" ]);
  TypeDecl "DocumentSelector" (Defined (TSlice (TNamed "DocumentFilter")));
  TypeDecl "MarkupKind" (Defined TString);
  ConstDecl "PlainText" (Some "MarkupKind") (StringLit "plaintext");
  ConstDecl "Markdown" (Some "MarkupKind") (StringLit "markdown");
  TypeDecl "MarkupContent" (Struct [
    fld "Kind" (TNamed "MarkupKind") "kind";
    fld "Value" TString "value" ])
].

Definition diagnostics_go : list Decl := [
  TypeDecl "PublishDiagnosticsParams" (Struct [
    fld "URI" (TNamed "DocumentURI") "uri";
    fld "Diagnostics" (TSlice (TNamed "Diagnostic")) "diagnostics" ])
].

(** [package protocol]: both files. *)
Definition package_protocol : list Decl := basic_go ++ diagnostics_go.

(** ** Reading the declarations *)

Definition decl_name (d : Decl) : string :=
  match d with
  | ConstDecl n _ _ | TypeDecl n _ | VarDecl n _ | FuncDecl n => n
  | MethodDecl r n => r +:+ "." +:+ n
  end.

Definition is_type_decl (d : Decl) : bool :=
  match d with TypeDecl _ _ => true | _ => false end.
Definition is_const_decl (d : Decl) : bool :=
  match d with ConstDecl _ _ _ => true | _ => false end.

(** A declaration that carries code to run (a function or a method) or
    state that can change (a variable). *)
Definition is_active_decl (d : Decl) : bool :=
  match d with
  | VarDecl _ _ | FuncDecl _ | MethodDecl _ _ => true
  | ConstDecl _ _ _ | TypeDecl _ _ => false
  end.

Definition type_names (ds : list Decl) : list string :=
  List.map decl_name (List.filter is_type_decl ds).
Definition const_names (ds : list Decl) : list string :=
  List.map decl_name (List.filter is_const_decl ds).

Fixpoint lookup_type (ds : list Decl) (name : string) : option TypeSpec :=
  match ds with
  | [] => None
  | TypeDecl n spec :: ds' =>
      if String.eqb n name then Some spec else lookup_type ds' name
  | _ :: ds' => lookup_type ds' name
  end.

Fixpoint lookup_const (ds : list Decl) (name : string)
  : option (option string * ConstExpr) :=
  match ds with
  | [] => None
  | ConstDecl n ty v :: ds' =>
      if String.eqb n name then Some (ty, v) else lookup_const ds' name
  | _ :: ds' => lookup_const ds' name
  end.

Definition struct_fields (ds : list Decl) (name : string)
  : option (list Field) :=
  match lookup_type ds name with
  | Some (Struct fs) => Some fs
  | _ => None
  end.

Definition find_field (fs : list Field) (name : string) : option Field :=
  List.find (fun f => String.eqb (field_name f) name) fs.

(** The type of the field [name] declared directly in struct [ty]. *)
Definition field_type_of (ds : list Decl) (ty name : string) : option GoType :=
  match struct_fields ds ty with
  | Some fs => option_map field_type (find_field fs name)
  | None => None
  end.

Definition field_tag_of (ds : list Decl) (ty name : string) : option JsonTag :=
  match struct_fields ds ty with
  | Some fs =>
      match find_field fs name with
      | Some f => field_tag f
      | None => None
      end
  | None => None
  end.

(** Go's selector [x.name] for [x] of struct type [ty]: a field declared in
    the struct itself, or else a field promoted from an embedded struct.
    The result is the path of field names followed and the field's type.
    [depth] bounds the nesting of embedded structs that is searched. *)
Fixpoint select (ds : list Decl) (depth : nat) (ty name : string)
  : option (list string * GoType) :=
  match struct_fields ds ty with
  | None => None
  | Some fs =>
      match find_field fs name with
      | Some f => Some ([field_name f], field_type f)
      | None =>
          match depth with
          | O => None
          | S depth' =>
              let fix through (es : list Field) :=
                match es with
                | [] => None
                | e :: es' =>
                    if field_embedded e then
                      match select ds depth' (field_name e) name with
                      | Some (path, t) => Some (field_name e :: path, t)
                      | None => through es'
                      end
                    else through es'
                end in
              through fs
          end
      end
  end.

(** The types whose values include [nil]: pointers, slices, maps and
    interfaces, and the named types defined as one of these.  [depth]
    bounds the chain of type definitions that is followed. *)
Fixpoint nilable (ds : list Decl) (depth : nat) (t : GoType) : bool :=
  match t with
  | TPointer _ | TSlice _ | TMap _ _ | TInterface => true
  | TString | TFloat64 | TUint64 => false
  | TNamed n =>
      match depth with
      | O => false
      | S depth' =>
          match lookup_type ds n with
          | Some (Defined u) => nilable ds depth' u
          | _ => false
          end
      end
  end.

(** The named constants of the package, with their values. *)
Fixpoint const_table (ds : list Decl) : list (string * ConstExpr) :=
  match ds with
  | [] => []
  | ConstDecl n _ v :: ds' => (n, v) :: const_table ds'
  | _ :: ds' => const_table ds'
  end.






(** ** Reading the package as a whole *)

(** The type names that a type expression mentions. *)
Fixpoint type_refs (t : GoType) : list string :=
  match t with
  | TNamed n => [n]
  | TPointer e | TSlice e => type_refs e
  | TMap k e => type_refs k ++ type_refs e
  | TString | TFloat64 | TUint64 | TInterface => []
  end.

(** The type names that the right-hand side of a type declaration
    mentions: those of the underlying type, or of the fields. *)
Definition spec_refs (spec : TypeSpec) : list string :=
  match spec with
  | Defined u => type_refs u
  | Struct fs => flat_map (fun f => type_refs (field_type f)) fs
  end.

(** The declaration of the type [n] mentions the type [m]. *)
Definition uses (ds : list Decl) (n m : string) : bool :=
  match lookup_type ds n with
  | Some spec => existsb (String.eqb m) (spec_refs spec)
  | None => false
  end.

(** The type [m] is reached from the type [n] by following at least one
    and at most [steps] mentions. *)
Fixpoint reaches (ds : list Decl) (steps : nat) (n m : string) : bool :=
  match steps with
  | O => false
  | S steps' =>
      match lookup_type ds n with
      | Some spec =>
          existsb (fun k => String.eqb k m || reaches ds steps' k m)
            (spec_refs spec)
      | None => false
      end
  end.

Fixpoint max_heights (hs : list (option nat)) : option nat :=
  match hs with
  | [] => Some 0
  | None :: _ => None
  | Some h :: hs' =>
      match max_heights hs' with
      | Some h' => Some (Nat.max h h')
      | None => None
      end
  end.

(** The height of the type [n]: one more than the greatest height of the
    types its declaration mentions; [None] when [fuel] does not suffice or
    a mentioned type is not declared. *)
Fixpoint type_height (ds : list Decl) (fuel : nat) (n : string) : option nat :=
  match fuel with
  | O => None
  | S fuel' =>
      match lookup_type ds n with
      | Some spec =>
          match
            max_heights (List.map (type_height ds fuel') (spec_refs spec))
          with
          | Some h => Some (S h)
          | None => None
          end
      | None => None
      end
  end.

Definition rank (ds : list Decl) (n : string) : nat :=
  match type_height ds (length ds) n with
  | Some h => h
  | None => O
  end.

(** The fields of the structs of the package, each with the name of its
    struct. *)
Definition all_fields (ds : list Decl) : list (string * Field) :=
  flat_map
    (fun d =>
       match d with
       | TypeDecl n (Struct fs) => List.map (pair n) fs
       | _ => []
       end) ds.

(** The field [name] of the struct [ty]. *)
Definition field_of (ds : list Decl) (ty name : string) : option Field :=
  match struct_fields ds ty with
  | Some fs => find_field fs name
  | None => None
  end.

Definition has_omitempty (f : Field) : bool :=
  match field_tag f with
  | Some t => tag_omitempty t
  | None => false
  end.

(** The kinds of type that [encoding/json] tells apart. *)
Inductive Kind : Set :=
| KString | KFloat | KUint | KInterface | KPointer | KSlice | KMap | KStruct.

(** The kind of a type expression; a named type has the kind of the type
    it is defined as.  [depth] bounds the chain of definitions. *)
Fixpoint kind_of (ds : list Decl) (depth : nat) (t : GoType) : option Kind :=
  match t with
  | TString => Some KString
  | TFloat64 => Some KFloat
  | TUint64 => Some KUint
  | TInterface => Some KInterface
  | TPointer _ => Some KPointer
  | TSlice _ => Some KSlice
  | TMap _ _ => Some KMap
  | TNamed n =>
      match depth with
      | O => None
      | S depth' =>
          match lookup_type ds n with
          | Some (Defined u) => kind_of ds depth' u
          | Some (Struct _) => Some KStruct
          | None => None
          end
      end
  end.

(** [encoding/json] knows an empty value for every kind but a struct: the
    option [omitempty] has no effect on a field of struct kind. *)
Definition has_empty_value (k : Kind) : bool :=
  match k with
  | KStruct => false
  | _ => true
  end.

Definition is_upper (c : ascii) : bool :=
  ((65 <=? N_of_ascii c) && (N_of_ascii c <=? 90))%N.

Definition is_lower (c : ascii) : bool :=
  ((97 <=? N_of_ascii c) && (N_of_ascii c <=? 122))%N.


Definition lower_initial (name : string) : bool :=
  match name with
  | String c _ => is_lower c
  | EmptyString => false
  end.

Definition to_lower (c : ascii) : ascii :=
  if is_upper c then ascii_of_N (N_of_ascii c + 32) else c.

Fixpoint lower (s : string) : string :=
  match s with
  | EmptyString => EmptyString
  | String c t => String (to_lower c) (lower t)
  end.

(** Equality of names up to the case of their letters. *)
Definition same_fold (a b : string) : bool := String.eqb (lower a) (lower b).

(** The keys of the JSON object that [encoding/json] writes for the struct
    [ty]: the name in a field's tag, the field's own name when it has no
    tag, and for an embedded struct without tag the keys of that struct.
    [depth] bounds the nesting of embedded structs. *)
Fixpoint wire_keys (ds : list Decl) (depth : nat) (ty : string) : list string :=
  match struct_fields ds ty with
  | None => []
  | Some fs =>
      match depth with
      | O =>
          flat_map
            (fun f =>
               match field_tag f with
               | Some t => [tag_name t]
               | None => if field_embedded f then [] else [field_name f]
               end) fs
      | S depth' =>
          flat_map
            (fun f =>
               match field_tag f with
               | Some t => [tag_name t]
               | None =>
                   if field_embedded f then wire_keys ds depth' (field_name f)
                   else [field_name f]
               end) fs
      end
  end.

(** The JSON key that the tag of the field [name] of the struct [ty]
    gives it. *)
Definition json_key (ds : list Decl) (ty name : string) : option string :=
  match field_of ds ty name with
  | Some f => option_map tag_name (field_tag f)
  | None => None
  end.

(** A constant's literal fits the type the constant is declared with: a
    string literal a string type; an integer literal a float64 type, when
    it is an integer that float64 holds exactly, or a uint64 type, when it
    is in range. *)
Definition literal_fits (v : ConstExpr) (u : GoType) : bool :=
  match v, u with
  | StringLit _, TString => true
  | IntLit z, TFloat64 => (Z.abs z <=? 2 ^ 53)%Z
  | IntLit z, TUint64 => ((0 <=? z) && (z <? 2 ^ 64))%Z
  | _, _ => false
  end.

(* ===================================================================== *)
(** * Part III: the framed JSON-RPC codec                                 *)
(* ===================================================================== *)

(** The codec that carries the structures above lives in the repository's
    JSON-RPC package, of which no file is at hand.  Every definition of this
    part is modelled from the specification of that codec (its sections 3,
    4.1 and 6). *)

(** Modelled from the spec: the framed byte stream of the missing codec;
    a byte is an [ascii]. *)
Definition bytes : Set := list ascii.

(** Modelled from the spec: a literal of the wire format, as bytes. *)
Definition lit (s : string) : bytes := list_ascii_of_string s.

Local Unset Elimination Schemes.

(** Modelled from the spec: the "opaque JSON" value of an envelope's
    [params], [result] and [data].  A number is a decimal
    [mantissa * 10 ^ exponent]; a string is its UTF-8 bytes. *)
Inductive json : Set :=
| JNull
| JBool (b : bool)
| JNumber (mantissa exponent : Z)
| JString (s : string)
| JArray (items : list json)
| JObject (members : list (string * json)).

Local Set Elimination Schemes.

(** Modelled from the spec: "id: int|string". *)
Inductive RequestID : Set :=
| IntID (n : Z)
| StringID (s : string).

(** Modelled from the spec: "error: {code:int, message:string,
    data:opaque}"; the scenario of section 8 sends an error without
    [data], so [data] may be absent. *)
Record ResponseError : Set := mkError {
  code : Z;
  message : string;
  data : option json
}.

(** Modelled from the spec: "exactly one of result/error present on a
    Response". *)
Inductive Outcome : Set :=
| Result (result : json)
| Failure (error : ResponseError).

(** Modelled from the spec: "Envelope: tagged variant {Request, Response,
    Notification}". *)
Inductive Envelope : Set :=
| Request (id : RequestID) (method : string) (params : json)
| Response (id : RequestID) (outcome : Outcome)
| Notification (method : string) (params : json).

(** Modelled from the spec: the three failures of [decode]. *)
Inductive CodecError : Set :=
| FramingError
| ParseError
| ProtocolError.

(** Modelled from the spec: the outcome of a fallible codec operation. *)
Inductive result (A : Type) : Type :=
| Ok (a : A)
| Err (e : CodecError).
Global Arguments Ok {A} a.
Global Arguments Err {A} e.

(** ** Decimal numbers *)

(** Modelled from the spec: the ASCII digits of a decimal number, most
    significant first. *)
Fixpoint uint_bytes (u : Decimal.uint) : bytes :=
  match u with
  | Decimal.Nil => []
  | Decimal.D0 u' => "0"%char :: uint_bytes u'
  | Decimal.D1 u' => "1"%char :: uint_bytes u'
  | Decimal.D2 u' => "2"%char :: uint_bytes u'
  | Decimal.D3 u' => "3"%char :: uint_bytes u'
  | Decimal.D4 u' => "4"%char :: uint_bytes u'
  | Decimal.D5 u' => "5"%char :: uint_bytes u'
  | Decimal.D6 u' => "6"%char :: uint_bytes u'
  | Decimal.D7 u' => "7"%char :: uint_bytes u'
  | Decimal.D8 u' => "8"%char :: uint_bytes u'
  | Decimal.D9 u' => "9"%char :: uint_bytes u'
  end.

(** Modelled from the spec: the digit a byte stands for, if any. *)
Definition digit (c : ascii) : option (Decimal.uint -> Decimal.uint) :=
  if Ascii.eqb c "0" then Some Decimal.D0
  else if Ascii.eqb c "1" then Some Decimal.D1
  else if Ascii.eqb c "2" then Some Decimal.D2
  else if Ascii.eqb c "3" then Some Decimal.D3
  else if Ascii.eqb c "4" then Some Decimal.D4
  else if Ascii.eqb c "5" then Some Decimal.D5
  else if Ascii.eqb c "6" then Some Decimal.D6
  else if Ascii.eqb c "7" then Some Decimal.D7
  else if Ascii.eqb c "8" then Some Decimal.D8
  else if Ascii.eqb c "9" then Some Decimal.D9
  else None.

Definition is_digit (c : ascii) : bool :=
  match digit c with Some _ => true | None => false end.

(** Modelled from the spec: reads the longest run of digits. *)
Fixpoint take_digits (s : bytes) : Decimal.uint * bytes :=
  match s with
  | [] => (Decimal.Nil, [])
  | c :: r =>
      match digit c with
      | Some d => let (u, r') := take_digits r in (d u, r')
      | None => (Decimal.Nil, s)
      end
  end.

(** Modelled from the spec: JSON writes an integer without leading zeros. *)
Definition canonical_uint (u : Decimal.uint) : bool :=
  match u with
  | Decimal.Nil => false
  | Decimal.D0 Decimal.Nil => true
  | Decimal.D0 _ => false
  | _ => true
  end.

Definition int_bytes (i : Decimal.signed_int) : bytes :=
  match i with
  | Decimal.Pos u => uint_bytes u
  | Decimal.Neg u => "-"%char :: uint_bytes u
  end.

(** Modelled from the spec: an integer in decimal. *)
Definition print_Z (z : Z) : bytes := int_bytes (Z.to_int z).

(** Modelled from the spec: "byte count", a natural number in decimal. *)
Definition print_nat (n : nat) : bytes := uint_bytes (N.to_uint (N.of_nat n)).

(** ** JSON text *)

(** Modelled from the spec: the characters JSON allows between tokens. *)
Definition is_ws (c : ascii) : bool :=
  Ascii.eqb c " " || Ascii.eqb c "009" || Ascii.eqb c "010"
  || Ascii.eqb c "013".

Fixpoint skip_ws (s : bytes) : bytes :=
  match s with
  | [] => []
  | c :: r => if is_ws c then skip_ws r else s
  end.

(** Modelled from the spec: [expect_lit p s] removes [p] from the front
    of [s]. *)
Fixpoint expect_lit (p s : bytes) : option bytes :=
  match p with
  | [] => Some s
  | c :: p' =>
      match s with
      | [] => None
      | c' :: s' => if Ascii.eqb c c' then expect_lit p' s' else None
      end
  end.

(** Modelled from the spec: the bytes below 0x20, which a JSON string
    holds only escaped. *)
Definition is_control (c : ascii) : bool := (N_of_ascii c <? 32)%N.

Definition hex_char (n : N) : ascii :=
  nth (N.to_nat n) (lit "0123456789abcdef") "0"%char.

Definition hex_val (c : ascii) : option N :=
  let n := N_of_ascii c in
  if ((48 <=? n) && (n <=? 57))%N then Some (n - 48)%N
  else if ((97 <=? n) && (n <=? 102))%N then Some (n - 87)%N
  else if ((65 <=? n) && (n <=? 70))%N then Some (n - 55)%N
  else None.

(** Modelled from the spec: the code point of a [\uXXXX] escape. *)
Definition hex4 (h1 h2 h3 h4 : ascii) : option N :=
  match hex_val h1, hex_val h2, hex_val h3, hex_val h4 with
  | Some a, Some b, Some c, Some d => Some (((a * 16 + b) * 16 + c) * 16 + d)%N
  | _, _, _, _ => None
  end.

(** Modelled from the spec: the UTF-8 bytes of a code point of the basic
    plane, put in front of [t]. *)
Definition utf8_cons (cp : N) (t : string) : string :=
  if (cp <? 128)%N then String (ascii_of_N cp) t
  else if (cp <? 2048)%N then
    String (ascii_of_N (N.lor 192 (N.shiftr cp 6)))
      (String (ascii_of_N (N.lor 128 (N.land cp 63))) t)
  else
    String (ascii_of_N (N.lor 224 (N.shiftr cp 12)))
      (String (ascii_of_N (N.lor 128 (N.land (N.shiftr cp 6) 63)))
         (String (ascii_of_N (N.lor 128 (N.land cp 63))) t)).

(** Modelled from the spec: the byte a one-letter escape stands for. *)
Definition unescape (e : ascii) : option ascii :=
  if Ascii.eqb e "034" then Some "034"%char
  else if Ascii.eqb e "092" then Some "092"%char
  else if Ascii.eqb e "/" then Some "/"%char
  else if Ascii.eqb e "b" then Some "008"%char
  else if Ascii.eqb e "f" then Some "012"%char
  else if Ascii.eqb e "n" then Some "010"%char
  else if Ascii.eqb e "r" then Some "013"%char
  else if Ascii.eqb e "t" then Some "009"%char
  else None.

(** Modelled from the spec: how one byte of a string is written: the
    quote and the backslash behind a backslash, a control byte as
    [\u00XX], any other byte as it is. *)
Definition escape_char (c : ascii) : bytes :=
  if Ascii.eqb c "034" then ["092"; "034"]%char
  else if Ascii.eqb c "092" then ["092"; "092"]%char
  else if is_control c then
    ["092"; "u"; "0"; "0"]%char
      ++ [hex_char (N_of_ascii c / 16); hex_char (N_of_ascii c mod 16)]
  else [c].

Fixpoint escape (s : string) : bytes :=
  match s with
  | EmptyString => []
  | String c t => escape_char c ++ escape t
  end.

Definition print_string (s : string) : bytes :=
  "034"%char :: escape s ++ ["034"%char].

(** Modelled from the spec: reads a string up to its closing quote; the
    opening quote has been read. *)
Fixpoint parse_string_body (s : bytes) : option (string * bytes) :=
  match s with
  | [] => None
  | c :: r =>
      if Ascii.eqb c "034" then Some (EmptyString, r)
      else if Ascii.eqb c "092" then
        match r with
        | [] => None
        | e :: r1 =>
            if Ascii.eqb e "u" then
              match r1 with
              | h1 :: h2 :: h3 :: h4 :: r2 =>
                  match hex4 h1 h2 h3 h4 with
                  | Some cp =>
                      match parse_string_body r2 with
                      | Some (t, r3) => Some (utf8_cons cp t, r3)
                      | None => None
                      end
                  | None => None
                  end
              | _ => None
              end
            else
              match unescape e with
              | Some c' =>
                  match parse_string_body r1 with
                  | Some (t, r2) => Some (String c' t, r2)
                  | None => None
                  end
              | None => None
              end
        end
      else if is_control c then None
      else
        match parse_string_body r with
        | Some (t, r') => Some (String c t, r')
        | None => None
        end
  end.

(** Modelled from the spec: how a number is written: the mantissa, and
    the exponent behind an [e] unless it is 0. *)
Definition print_number (m e : Z) : bytes :=
  print_Z m ++ (if (e =? 0)%Z then [] else "e"%char :: print_Z e).

(** Modelled from the spec: the optional fraction of a number: its digits
    join the mantissa [u] and lower the exponent. *)
Definition parse_fraction (u : Decimal.uint) (s : bytes)
  : option (Decimal.uint * Z * bytes) :=
  match s with
  | c :: r =>
      if Ascii.eqb c "." then
        let (f, r') := take_digits r in
        match f with
        | Decimal.Nil => None
        | _ => Some (Decimal.app u f, Z.of_nat (Decimal.nb_digits f), r')
        end
      else Some (u, 0%Z, s)
  | [] => Some (u, 0%Z, s)
  end.

(** Modelled from the spec: the sign in front of a number. *)
Definition parse_minus (s : bytes) : bool * bytes :=
  match s with
  | c :: r => if Ascii.eqb c "-" then (true, r) else (false, s)
  | [] => (false, s)
  end.

(** Modelled from the spec: the sign of an exponent, [-] or [+]. *)
Definition parse_exp_sign (s : bytes) : bool * bytes :=
  match s with
  | c :: r =>
      if Ascii.eqb c "-" then (true, r)
      else if Ascii.eqb c "+" then (false, r)
      else (false, s)
  | [] => (false, s)
  end.

Definition signed (neg : bool) (u : Decimal.uint) : Decimal.signed_int :=
  if neg then Decimal.Neg u else Decimal.Pos u.

(** Modelled from the spec: the optional exponent of a number. *)
Definition parse_exponent (s : bytes) : option (Z * bytes) :=
  match s with
  | c :: r =>
      if Ascii.eqb c "e" || Ascii.eqb c "E" then
        let (neg, r1) := parse_exp_sign r in
        let (x, r2) := take_digits r1 in
        match x with
        | Decimal.Nil => None
        | _ => Some (Z.of_int (signed neg x), r2)
        end
      else Some (0%Z, s)
  | [] => Some (0%Z, s)
  end.

(** Modelled from the spec: reads a JSON number: an integer without
    leading zeros, then the optional fraction and exponent. *)
Definition parse_number (s : bytes) : option (json * bytes) :=
  let (neg, s1) := parse_minus s in
  let (u, s2) := take_digits s1 in
  if canonical_uint u then
    match parse_fraction u s2 with
    | Some (digits, shift, s3) =>
        match parse_exponent s3 with
        | Some (e, s4) =>
            Some (JNumber (Z.of_int (signed neg digits)) (e - shift), s4)
        | None => None
        end
    | None => None
    end
  else None.

(** Modelled from the spec: the items of a list, with commas between. *)
Definition sep_by_comma (items : list bytes) : bytes :=
  match items with
  | [] => []
  | x :: l => x ++ flat_map (fun y => ","%char :: y) l
  end.

(** Modelled from the spec: the JSON text of a value ("the JSON body"),
    written without white space. *)
Fixpoint print (v : json) : bytes :=
  match v with
  | JNull => lit "null"
  | JBool true => lit "true"
  | JBool false => lit "false"
  | JNumber m e => print_number m e
  | JString s => print_string s
  | JArray items =>
      "["%char :: sep_by_comma (List.map print items) ++ ["]"%char]
  | JObject members =>
      "{"%char
        :: sep_by_comma
             (List.map
                (fun kv => print_string (fst kv) ++ ":"%char :: print (snd kv))
                members)
        ++ ["}"%char]
  end.

(** Modelled from the spec: "parses them as JSON".  [fuel] bounds the
    number of values, items and members that are read. *)
Fixpoint parse_value (fuel : nat) (s : bytes) {struct fuel}
  : option (json * bytes) :=
  match fuel with
  | O => None
  | S fuel' =>
      match skip_ws s with
      | [] => None
      | c :: r =>
          if Ascii.eqb c "{" then
            match skip_ws r with
            | [] => None
            | c' :: r' =>
                if Ascii.eqb c' "}" then Some (JObject [], r')
                else
                  match parse_members fuel' (c' :: r') with
                  | Some (ms, r'') => Some (JObject ms, r'')
                  | None => None
                  end
            end
          else if Ascii.eqb c "[" then
            match skip_ws r with
            | [] => None
            | c' :: r' =>
                if Ascii.eqb c' "]" then Some (JArray [], r')
                else
                  match parse_elems fuel' (c' :: r') with
                  | Some (vs, r'') => Some (JArray vs, r'')
                  | None => None
                  end
            end
          else if Ascii.eqb c "034" then
            match parse_string_body r with
            | Some (str, r') => Some (JString str, r')
            | None => None
            end
          else if Ascii.eqb c "t" then
            match expect_lit (lit "rue") r with
            | Some r' => Some (JBool true, r')
            | None => None
            end
          else if Ascii.eqb c "f" then
            match expect_lit (lit "alse") r with
            | Some r' => Some (JBool false, r')
            | None => None
            end
          else if Ascii.eqb c "n" then
            match expect_lit (lit "ull") r with
            | Some r' => Some (JNull, r')
            | None => None
            end
          else parse_number (c :: r)
      end
  end

with parse_elems (fuel : nat) (s : bytes) {struct fuel}
  : option (list json * bytes) :=
  match fuel with
  | O => None
  | S fuel' =>
      match parse_value fuel' s with
      | None => None
      | Some (v, r) =>
          match skip_ws r with
          | [] => None
          | c :: r' =>
              if Ascii.eqb c "," then
                match parse_elems fuel' r' with
                | Some (vs, r'') => Some (v :: vs, r'')
                | None => None
                end
              else if Ascii.eqb c "]" then Some ([v], r')
              else None
          end
      end
  end

with parse_members (fuel : nat) (s : bytes) {struct fuel}
  : option (list (string * json) * bytes) :=
  match fuel with
  | O => None
  | S fuel' =>
      match skip_ws s with
      | [] => None
      | q :: r =>
          if Ascii.eqb q "034" then
            match parse_string_body r with
            | None => None
            | Some (k, r1) =>
                match skip_ws r1 with
                | [] => None
                | c :: r2 =>
                    if Ascii.eqb c ":" then
                      match parse_value fuel' r2 with
                      | None => None
                      | Some (v, r3) =>
                          match skip_ws r3 with
                          | [] => None
                          | c' :: r4 =>
                              if Ascii.eqb c' "," then
                                match parse_members fuel' r4 with
                                | Some (ms, r5) => Some ((k, v) :: ms, r5)
                                | None => None
                                end
                              else if Ascii.eqb c' "}" then Some ([(k, v)], r4)
                              else None
                          end
                      end
                    else None
                end
            end
          else None
      end
  end.

(** Modelled from the spec: parses a whole body; only white space may
    follow the value. *)
Definition parse_json (body : bytes) : option json :=
  match parse_value (S (length body)) body with
  | Some (v, r) =>
      match skip_ws r with
      | [] => Some v
      | _ :: _ => None
      end
  | None => None
  end.

(** ** Envelopes as JSON objects *)

(** Modelled from the spec: the member [key] of a JSON object, if
    present. *)
Fixpoint member (key : string) (ms : list (string * json)) : option json :=
  match ms with
  | [] => None
  | (k, v) :: ms' => if String.eqb k key then Some v else member key ms'
  end.

Definition id_to_json (i : RequestID) : json :=
  match i with
  | IntID n => JNumber n 0
  | StringID s => JString s
  end.

(** Modelled from the spec: "id is a number or string". *)
Definition id_of_json (v : json) : option RequestID :=
  match v with
  | JNumber n 0 => Some (IntID n)
  | JString s => Some (StringID s)
  | _ => None
  end.

Definition error_to_json (e : ResponseError) : json :=
  JObject
    (("code", JNumber (code e) 0) :: ("message", JString (message e))
       :: match data e with
          | Some d => [("data", d)]
          | None => []
          end).

Definition error_of_json (v : json) : option ResponseError :=
  match v with
  | JObject ms =>
      match member "code" ms, member "message" ms with
      | Some (JNumber c 0), Some (JString m) =>
          Some (mkError c m (member "data" ms))
      | _, _ => None
      end
  | _ => None
  end.

(** Modelled from the spec: the JSON body shape
    [{"jsonrpc":"2.0", id?, method?, params?, result?, error?}]. *)
Definition to_json (E : Envelope) : json :=
  match E with
  | Request i m p =>
      JObject [("jsonrpc", JString "2.0"); ("id", id_to_json i);
               ("method", JString m); ("params", p)]
  | Response i (Result r) =>
      JObject [("jsonrpc", JString "2.0"); ("id", id_to_json i); ("result", r)]
  | Response i (Failure e) =>
      JObject [("jsonrpc", JString "2.0"); ("id", id_to_json i);
               ("error", error_to_json e)]
  | Notification m p =>
      JObject [("jsonrpc", JString "2.0"); ("method", JString m); ("params", p)]
  end.

(** Modelled from the spec: the [params] of a message that has none. *)
Definition params_of (ms : list (string * json)) : json :=
  match member "params" ms with
  | Some p => p
  | None => JNull
  end.

(** Modelled from the spec: "classifying the result into the Envelope
    variant by presence of id/method/result/error", and [ProtocolError]
    "if the parsed object matches none of the three variants". *)
Definition classify (v : json) : result Envelope :=
  match v with
  | JObject ms =>
      match member "method" ms, member "id" ms,
            member "result" ms, member "error" ms with
      | Some (JString m), Some i, None, None =>
          match id_of_json i with
          | Some i' => Ok (Request i' m (params_of ms))
          | None => Err ProtocolError
          end
      | Some (JString m), None, None, None =>
          Ok (Notification m (params_of ms))
      | None, Some i, Some r, None =>
          match id_of_json i with
          | Some i' => Ok (Response i' (Result r))
          | None => Err ProtocolError
          end
      | None, Some i, None, Some e =>
          match id_of_json i, error_of_json e with
          | Some i', Some e' => Ok (Response i' (Failure e'))
          | _, _ => Err ProtocolError
          end
      | _, _, _, _ => Err ProtocolError
      end
  | _ => Err ProtocolError
  end.

(** ** Framing *)

(** Modelled from the spec: "ASCII header lines terminated by CRLF". *)
Definition crlf : bytes := ["013"; "010"]%char.

(** Modelled from the spec: [encode] "prefixes a Content-Length header
    (byte count of the UTF-8-encoded JSON body) followed by a blank line
    and the JSON body". *)
Definition frame (body : bytes) : bytes :=
  lit "Content-Length: " ++ print_nat (length body) ++ crlf ++ crlf ++ body.

Definition encode (E : Envelope) : bytes := frame (print (to_json E)).

(** Modelled from the spec: reads one header line, without its CRLF. *)
Fixpoint read_line (s : bytes) : option (bytes * bytes) :=
  match s with
  | [] => None
  | c :: r =>
      match r with
      | [] => None
      | c' :: r' =>
          if Ascii.eqb c "013" && Ascii.eqb c' "010" then Some ([], r')
          else
            match read_line r with
            | Some (l, t) => Some (c :: l, t)
            | None => None
            end
      end
  end.

Fixpoint skip_spaces (s : bytes) : bytes :=
  match s with
  | c :: r => if Ascii.eqb c " " then skip_spaces r else s
  | [] => []
  end.

(** Modelled from the spec: what a header line says. *)
Inductive Header : Set :=
| ContentLength (n : nat)
| OtherHeader
| Malformed.

(** Modelled from the spec: "mandatory Content-Length: <n>", "optional
    Content-Type (ignored)"; a line without a colon, or a length that is
    not a decimal number, is malformed. *)
Definition parse_header (line : bytes) : Header :=
  match expect_lit (lit "Content-Length:") line with
  | Some v =>
      match take_digits (skip_spaces v) with
      | (Decimal.Nil, _) => Malformed
      | (u, []) => ContentLength (N.to_nat (N.of_uint u))
      | (_, _ :: _) => Malformed
      end
  | None =>
      if existsb (Ascii.eqb ":") line then OtherHeader else Malformed
  end.

(** Modelled from the spec: "reads the header line(s) until a blank
    line"; [FramingError] "on a malformed or missing Content-Length
    header".  [fuel] bounds the number of lines. *)
Fixpoint read_headers (fuel : nat) (len : option nat) (s : bytes)
  : result (nat * bytes) :=
  match fuel with
  | O => Err FramingError
  | S fuel' =>
      match read_line s with
      | None => Err FramingError
      | Some ([], r) =>
          match len with
          | Some n => Ok (n, r)
          | None => Err FramingError
          end
      | Some (line, r) =>
          match parse_header line with
          | ContentLength n => read_headers fuel' (Some n) r
          | OtherHeader => read_headers fuel' len r
          | Malformed => Err FramingError
          end
      end
  end.

(** Modelled from the spec: [decode] "reads the header line(s) until a
    blank line, then reads exactly that many bytes and parses them as
    JSON, classifying the result into the Envelope variant".  The bytes
    behind the frame are returned with the envelope. *)
Definition decode (stream : bytes) : result (Envelope * bytes) :=
  match read_headers (length stream) None stream with
  | Err e => Err e
  | Ok (n, r) =>
      if (n <=? length r)%nat then
        match parse_json (firstn n r) with
        | None => Err ParseError
        | Some v =>
            match classify v with
            | Ok E => Ok (E, skipn n r)
            | Err e => Err e
            end
        end
      else Err FramingError
  end.

(** ** Measures and side conditions of the codec's properties *)

(** The stream does not go on with a digit. *)
Definition no_digit_ahead (s : bytes) : bool :=
  match s with
  | [] => true
  | c :: _ => negb (is_digit c)
  end.

(** The stream does not go on with a byte that would extend a number: a
    digit, a point or an exponent mark. *)
Definition number_ends (s : bytes) : bool :=
  match s with
  | [] => true
  | c :: _ =>
      negb (is_digit c || Ascii.eqb c "." || Ascii.eqb c "e" || Ascii.eqb c "E")
  end.

Definition int_digits (i : Decimal.signed_int) : Decimal.uint :=
  match i with Decimal.Pos u | Decimal.Neg u => u end.

Definition int_neg (i : Decimal.signed_int) : bool :=
  match i with Decimal.Pos _ => false | Decimal.Neg _ => true end.

(** The fuel that reading [v] back takes: one unit for each value and one
    for each item of an array and each member of an object. *)
Fixpoint json_size (v : json) : nat :=
  match v with
  | JArray items => S (list_sum (List.map (fun x => S (json_size x)) items))
  | JObject members =>
      S (list_sum (List.map (fun kv => S (json_size (snd kv))) members))
  | _ => 1
  end.

(** The bytes a JSON value can start with. *)
Definition value_start (c : ascii) : bool :=
  Ascii.eqb c "{" || Ascii.eqb c "[" || Ascii.eqb c "034" || Ascii.eqb c "t"
  || Ascii.eqb c "f" || Ascii.eqb c "n" || Ascii.eqb c "-" || is_digit c.

(** The text of one member of an object, as [print] writes it. *)
Definition print_member (kv : string * json) : bytes :=
  print_string (fst kv) ++ ":"%char :: print (snd kv).

(** What [parse_value] promises for the text of [v]: with enough fuel, and
    whatever follows the text (unless it would extend a number), it reads
    [v] and stops right behind the text. *)
Definition reads_back (v : json) : Prop :=
  forall (fuel : nat) (rest : bytes),
    json_size v <= fuel -> number_ends rest = true ->
    parse_value fuel (print v ++ rest) = Some (v, rest).

(** The text of the items and members behind the first one. *)
Definition tail_items (l : list json) : bytes :=
  flat_map (fun y => ","%char :: y) (List.map print l).

Definition tail_members (l : list (string * json)) : bytes :=
  flat_map (fun y => ","%char :: y) (List.map print_member l).

(** A header line holds no carriage return. *)
Definition no_cr (l : bytes) : bool :=
  forallb (fun c => negb (Ascii.eqb c "013")) l.

(** The request of the first scenario of the specification's section 8,
    its error response, and a notification with a nested payload. *)
Definition scenario_request : Envelope :=
  Request (IntID 1) "foo" (JObject []).

Definition scenario_response : Envelope :=
  Response (IntID 1) (Failure (mkError (-32601) "method not found" None)).

Definition sample_notification : Envelope :=
  Notification "$/cancelRequest"
    (JObject [("id", JNumber 7 0);
              ("trace", JArray [JNull; JBool true; JNumber (-15) (-1);
                                JString (String "010" (String "034" "a"));
                                JArray []; JObject [("k", JString "")]])]).

(** An object that is neither request, response nor notification: it has
    both a result and an error. *)
Definition result_and_error : json :=
  JObject [("jsonrpc", JString "2.0"); ("id", JNumber 1 0);
           ("result", JNull); ("error", error_to_json (mkError 1 "x" None))].

(* ===================================================================== *)
(** * Part IV: properties of the declarations                             *)
(* ===================================================================== *)

Local Abbreviation pkg := package_protocol.

Lemma float_neq (x y : float64) :
  PrimFloat.eqb x x = true -> PrimFloat.eqb x y = false -> x <> y.
Proof.
  intros Hxx Hxy E. rewrite <- E in Hxy. congruence.
Qed.

Lemma no_active_decl : Forall (fun d => is_active_decl d = false) pkg.
Proof.
  unfold pkg, package_protocol, basic_go, diagnostics_go; simpl.
  repeat constructor.
Qed.



(** C2: the package is purely declarative: every top-level declaration is
    a type definition or a constant, and none is a function, a method or
    a variable, so the package holds no code that validates, dispatches or
    changes state. *)
Theorem package_is_declarative :
  Forall (fun d => is_type_decl d || is_const_decl d = true) pkg
  /\ Forall (fun d => is_active_decl d = false) pkg
  /\ length (type_names pkg) + length (const_names pkg) = length pkg.
Proof.
  split; [| split].
  - unfold package_protocol, basic_go, diagnostics_go; simpl.
    repeat constructor.
  - exact no_active_decl.
  - reflexivity.
Qed.

(** C3: the field Code of Diagnostic is declared with the single type
    string (tagged "code,omitempty"), not with a union of number and
    string; so the code of every Diagnostic value is a string. *)
Theorem diagnostic_code_is_string :
  field_type_of pkg "Diagnostic" "Code" = Some TString
  /\ field_tag_of pkg "Diagnostic" "Code" = Some (mkTag "code" true)
  /\ forall d : Diagnostic, exists s : string, Diagnostic.Code d = s.
Proof.
  split; [reflexivity | split; [reflexivity |]].
  intros d. exists (Diagnostic.Code d). reflexivity.
Qed.

(** C4: VersionedTextDocumentIdentifier embeds TextDocumentIdentifier: the
    struct holds the base structure as a field (composition), it has no
    URI field of its own, and the selector URI resolves through the
    embedded field to a field of type DocumentURI; so every value reaches a
    document URI through its embedded base structure. *)
Theorem versioned_identifier_embeds_base :
  struct_fields pkg "VersionedTextDocumentIdentifier"
    = Some [embedded "TextDocumentIdentifier";
            fld "Version" (TPointer TUint64) "version"]
  /\ field_type_of pkg "VersionedTextDocumentIdentifier" "URI" = None
  /\ select pkg 1 "VersionedTextDocumentIdentifier" "URI"
       = Some (["TextDocumentIdentifier"; "URI"], TNamed "DocumentURI")
  /\ (forall v : VersionedTextDocumentIdentifier,
        exists (base : TextDocumentIdentifier) (uri : DocumentURI),
          VersionedTextDocumentIdentifier.TextDocumentIdentifier v = base
          /\ TextDocumentIdentifier.URI base = uri
          /\ VersionedTextDocumentIdentifier.URI v = uri)
  /\ (forall (base : TextDocumentIdentifier) (ver : option uint64),
        VersionedTextDocumentIdentifier.URI
          (VersionedTextDocumentIdentifier.mk base ver)
        = TextDocumentIdentifier.URI base).
Proof.
  repeat split; try reflexivity.
  intros v. eexists. eexists. repeat split; reflexivity.
Qed.

(** C6: CodeRequestCancelled is a package-level named constant with the
    fixed value -32800: it is declared once, as a constant, it is an entry
    of the table of named constants, and the package declares no variable,
    function or method, hence nothing that could modify it. *)
Theorem CodeRequestCancelled_is_constant :
  CodeRequestCancelled = (-32800)%Z
  /\ lookup_const pkg "CodeRequestCancelled"
       = Some (None, IntLit CodeRequestCancelled)
  /\ In ("CodeRequestCancelled", IntLit (-32800)) (const_table pkg)
  /\ count_occ string_dec (List.map decl_name pkg) "CodeRequestCancelled"
       = 1%nat
  /\ Forall (fun d => is_active_decl d = false) pkg.
Proof.
  repeat split; try reflexivity.
  - left. reflexivity.
  - exact no_active_decl.
Qed.

(** C7: the field Arguments of Command is a list of values of the empty
    interface type; the package has no function or method that could
    inspect them, and the structure is the same whatever the dynamic values
    are: changing their representation changes the items of Arguments and
    nothing else.  So the schema layer carries the arguments without
    interpreting them. *)
Theorem command_arguments_opaque :
  field_type_of pkg "Command" "Arguments" = Some (TSlice TInterface)
  /\ Forall (fun d => is_active_decl d = false) pkg
  /\ forall (A B : Type) (f : A -> B) (c : Command A),
       Command.Title (Command.map_any f c) = Command.Title c
       /\ Command.Command (Command.map_any f c) = Command.Command c
       /\ Command.Arguments (Command.map_any f c)
          = List.map f (Command.Arguments c).
Proof.
  split; [reflexivity | split; [exact no_active_decl |]].
  intros A B f c. repeat split; reflexivity.
Qed.

(** C8: the constants SeverityError, SeverityWarning, SeverityInformation
    and SeverityHint have the values 1, 2, 3 and 4; these are pairwise
    distinct and none is 0, the zero value of DiagnosticSeverity that
    "omitempty" leaves out; so a defined severity is never left out and
    differs from an unset one. *)
Theorem severity_constants_distinct :
  SeverityError = 1%float /\ SeverityWarning = 2%float
  /\ SeverityInformation = 3%float /\ SeverityHint = 4%float
  /\ List.map (lookup_const pkg)
       ["SeverityError"; "SeverityWarning"; "SeverityInformation";
        "SeverityHint"]
     = List.map (fun z => Some (Some "DiagnosticSeverity", IntLit z))
         [1; 2; 3; 4]%Z
  /\ List.NoDup
       [SeverityError; SeverityWarning; SeverityInformation; SeverityHint]
  /\ Forall (fun s : DiagnosticSeverity => s <> 0%float)
       [SeverityError; SeverityWarning; SeverityInformation; SeverityHint]
  /\ Forall (fun s => omitted_float64 s = false)
       [SeverityError; SeverityWarning; SeverityInformation; SeverityHint]
  /\ omitted_float64 0%float = true
  /\ field_tag_of pkg "Diagnostic" "Severity" = Some (mkTag "severity" true).
Proof.
  assert (Hneq : forall x y : float64,
             PrimFloat.eqb x x = true -> PrimFloat.eqb x y = false -> x <> y)
    by exact float_neq.
  repeat split; try reflexivity.
  - repeat (apply List.NoDup_cons;
            [ intros H; simpl in H;
              repeat (destruct H as [E | H];
                      [revert E; apply Hneq; reflexivity |]);
              exact H | ]).
    apply List.NoDup_nil.
  - repeat constructor; apply Hneq; reflexivity.
  - repeat constructor.
Qed.

(** C9: the two MarkupKind constants, PlainText ("plaintext") and Markdown
    ("markdown"), do not start with the character '$', which is reserved,
    and they differ from each other. *)
Theorem markup_kinds_not_reserved :
  PlainText = "plaintext" /\ Markdown = "markdown"
  /\ starts_with_dollar PlainText = false
  /\ starts_with_dollar Markdown = false
  /\ PlainText <> Markdown
  /\ lookup_const pkg "PlainText"
     = Some (Some "MarkupKind", StringLit PlainText)
  /\ lookup_const pkg "Markdown"
     = Some (Some "MarkupKind", StringLit Markdown).
Proof.
  repeat split; try reflexivity. discriminate.
Qed.

(** Nil is a value of a named slice type, not of a named struct or float
    type. *)
Example nilable_named_types :
  nilable pkg 1 (TNamed "DocumentSelector") = true
  /\ nilable pkg 1 (TNamed "DiagnosticSeverity") = false
  /\ nilable pkg 1 (TNamed "Range") = false.
Proof. repeat split. Qed.

(** C10: the Version of a VersionedTextDocumentIdentifier is a pointer to
    uint64, a type that has nil, so a value may carry no version; the
    Version of a TextDocumentItem is a float64, a type without nil, written
    on the wire also when it is zero; so every TextDocumentItem holds a
    version number. *)
Theorem version_nullability :
  field_type_of pkg "VersionedTextDocumentIdentifier" "Version"
    = Some (TPointer TUint64)
  /\ nilable pkg 1 (TPointer TUint64) = true
  /\ field_type_of pkg "TextDocumentItem" "Version" = Some TFloat64
  /\ nilable pkg 1 TFloat64 = false
  /\ field_tag_of pkg "TextDocumentItem" "Version"
     = Some (mkTag "version" false)
  /\ (exists v : VersionedTextDocumentIdentifier,
        VersionedTextDocumentIdentifier.Version v = None)
  /\ (forall n : uint64, exists v : VersionedTextDocumentIdentifier,
        VersionedTextDocumentIdentifier.Version v = Some n)
  /\ (forall item : TextDocumentItem,
        exists x : float64, TextDocumentItem.Version item = x).
Proof.
  repeat split; try reflexivity.
  - exists (VersionedTextDocumentIdentifier.mk (TextDocumentIdentifier.mk "")
              None).
    reflexivity.
  - intros n.
    exists (VersionedTextDocumentIdentifier.mk (TextDocumentIdentifier.mk "")
              (Some n)).
    reflexivity.
  - intros item. exists (TextDocumentItem.Version item). reflexivity.
Qed.

(* ===================================================================== *)
(** * Part V: the codec reads back what it writes                         *)
(* ===================================================================== *)

(** A property of a byte that is settled by computation is proved by
    running through the 256 bytes. *)
Ltac each_byte c :=
  destruct c as [[] [] [] [] [] [] [] []].

Ltac byte_facts c :=
  each_byte c; vm_compute; intros H; try discriminate H; repeat split.

(** One step of a reader on a stream whose next byte is known. *)
Ltac read_byte :=
  cbn [app skip_ws is_ws Ascii.eqb orb Bool.eqb]; cbv iota.

(** ** Decimal numbers *)

(** Reading the digits that [uint_bytes] wrote gives the number back. *)
Lemma take_digits_uint_bytes (u : Decimal.uint) (rest : bytes) :
  no_digit_ahead rest = true ->
  take_digits (uint_bytes u ++ rest) = (u, rest).
Proof.
  intros Hrest.
  induction u as [| u IH | u IH | u IH | u IH | u IH | u IH | u IH | u IH
                   | u IH | u IH];
    simpl; try (rewrite IH; reflexivity).
  destruct rest as [| c r]; [reflexivity |].
  simpl in *. unfold is_digit in Hrest.
  destruct (digit c); [discriminate | reflexivity].
Qed.

(** The Standard Library's conversions write numbers without leading
    zeros. *)
Lemma canonical_unorm (d : Decimal.uint) :
  canonical_uint (Decimal.unorm d) = true.
Proof.
  unfold Decimal.unorm.
  destruct (Decimal.nzhead d) eqn:E; try reflexivity.
  exfalso. exact (nzhead_nonzero _ _ E).
Qed.

Lemma canonical_pos (p : positive) : canonical_uint (Pos.to_uint p) = true.
Proof.
  rewrite <- (canonical_unorm (Pos.to_uint p)).
  f_equal. rewrite <- DecimalPos.Unsigned.to_of, DecimalPos.Unsigned.of_to.
  reflexivity.
Qed.

Lemma canonical_N (n : N) : canonical_uint (N.to_uint n) = true.
Proof.
  destruct n as [| p]; [reflexivity | apply canonical_pos].
Qed.

Lemma uint_bytes_head (u : Decimal.uint) (rest : bytes) :
  canonical_uint u = true ->
  exists c r, uint_bytes u ++ rest = c :: r /\ is_digit c = true.
Proof.
  destruct u; simpl; try discriminate; intros _; eauto.
Qed.

Lemma canonical_Z (z : Z) : canonical_uint (int_digits (Z.to_int z)) = true.
Proof.
  destruct z as [| p | p]; simpl; [reflexivity | apply canonical_pos ..].
Qed.

Lemma signed_int_eta (i : Decimal.signed_int) :
  signed (int_neg i) (int_digits i) = i.
Proof. destruct i; reflexivity. Qed.

Lemma digit_not_sign (c : ascii) :
  is_digit c = true ->
  Ascii.eqb c "-" = false /\ Ascii.eqb c "+" = false /\ Ascii.eqb c "." = false
  /\ Ascii.eqb c "e" = false /\ Ascii.eqb c "E" = false.
Proof.
  byte_facts c.
Qed.

(** The sign of a printed integer is read back. *)
Lemma parse_minus_int (i : Decimal.signed_int) (tl : bytes) :
  canonical_uint (int_digits i) = true ->
  parse_minus (int_bytes i ++ tl)
  = (int_neg i, uint_bytes (int_digits i) ++ tl).
Proof.
  intros Hc. destruct i as [u | u]; simpl; [| reflexivity].
  destruct (uint_bytes_head u tl Hc) as (c & r & -> & Hd).
  simpl. apply digit_not_sign in Hd as (-> & _). reflexivity.
Qed.

Lemma parse_exp_sign_int (i : Decimal.signed_int) (tl : bytes) :
  canonical_uint (int_digits i) = true ->
  parse_exp_sign (int_bytes i ++ tl)
  = (int_neg i, uint_bytes (int_digits i) ++ tl).
Proof.
  intros Hc. destruct i as [u | u]; simpl; [| reflexivity].
  destruct (uint_bytes_head u tl Hc) as (c & r & -> & Hd).
  simpl. apply digit_not_sign in Hd as (-> & -> & _). reflexivity.
Qed.

Lemma canonical_not_nil (u : Decimal.uint) :
  canonical_uint u = true -> u <> Decimal.Nil.
Proof. destruct u; simpl; congruence. Qed.

Lemma number_ends_no_digit (s : bytes) :
  number_ends s = true -> no_digit_ahead s = true.
Proof.
  destruct s as [| c r]; simpl; [reflexivity |].
  destruct (is_digit c); simpl; [discriminate | reflexivity].
Qed.

(** A number printed without fraction and exponent is read without them. *)
Lemma parse_exponent_none (s : bytes) :
  number_ends s = true -> parse_exponent s = Some (0%Z, s).
Proof.
  destruct s as [| c r]; simpl; [reflexivity |].
  intros H. apply negb_true_iff in H.
  repeat (apply orb_false_iff in H as [H ?]).
  unfold parse_exponent.
  replace (Ascii.eqb c "e" || Ascii.eqb c "E") with false
    by (symmetry; apply orb_false_iff; split; assumption).
  reflexivity.
Qed.

Lemma parse_fraction_none (u : Decimal.uint) (s : bytes) :
  match s with [] => True | c :: _ => Ascii.eqb c "." = false end ->
  parse_fraction u s = Some (u, 0%Z, s).
Proof.
  destruct s as [| c r]; simpl; [reflexivity | intros ->; reflexivity].
Qed.

Lemma parse_exponent_print (e : Z) (rest : bytes) :
  no_digit_ahead rest = true ->
  parse_exponent ("e"%char :: print_Z e ++ rest) = Some (e, rest).
Proof.
  intros Hrest. unfold parse_exponent, print_Z.
  replace (Ascii.eqb "e" "e" || Ascii.eqb "e" "E") with true by reflexivity.
  cbv iota.
  rewrite parse_exp_sign_int by apply canonical_Z.
  rewrite take_digits_uint_bytes by assumption.
  rewrite signed_int_eta, DecimalZ.of_to.
  pose proof (canonical_not_nil _ (canonical_Z e)) as Hn.
  destruct (int_digits (Z.to_int e)); [congruence | reflexivity ..].
Qed.

(** [parse_number] reads back what [print_number] wrote. *)
Lemma parse_number_print (m e : Z) (rest : bytes) :
  number_ends rest = true ->
  parse_number (print_number m e ++ rest) = Some (JNumber m e, rest).
Proof.
  intros Hrest. unfold parse_number, print_number, print_Z.
  rewrite <- app_assoc.
  rewrite parse_minus_int by apply canonical_Z.
  destruct (Z.eqb_spec e 0) as [-> | Hne].
  - simpl app.
    rewrite take_digits_uint_bytes by (now apply number_ends_no_digit).
    rewrite canonical_Z.
    rewrite parse_fraction_none.
    + rewrite parse_exponent_none by assumption.
      rewrite signed_int_eta, DecimalZ.of_to. reflexivity.
    + destruct rest as [| c r]; [exact I |].
      simpl in Hrest. apply negb_true_iff in Hrest.
      repeat (apply orb_false_iff in Hrest as [Hrest ?]). assumption.
  - simpl app. rewrite take_digits_uint_bytes by reflexivity.
    rewrite canonical_Z.
    rewrite parse_fraction_none by reflexivity.
    fold (print_Z e).
    rewrite parse_exponent_print by (now apply number_ends_no_digit).
    rewrite signed_int_eta, DecimalZ.of_to, Z.sub_0_r. reflexivity.
Qed.

(** ** Strings *)

(** Each byte of a string is read back from the way it was written. *)
Lemma parse_string_escape_char (c : ascii) (rest : bytes) (t : string)
    (r : bytes) :
  parse_string_body rest = Some (t, r) ->
  parse_string_body (escape_char c ++ rest) = Some (String c t, r).
Proof.
  intros H.
  each_byte c;
    (match goal with
     | |- context [escape_char ?a] =>
         let y := eval vm_compute in (escape_char a) in
         change (escape_char a) with y
     end);
    simpl; rewrite H; reflexivity.
Qed.

Lemma parse_string_print (s : string) (rest : bytes) :
  parse_string_body (escape s ++ "034"%char :: rest) = Some (s, rest).
Proof.
  induction s as [| c t IH]; simpl.
  - reflexivity.
  - rewrite <- app_assoc. apply parse_string_escape_char, IH.
Qed.

(** ** Values *)

(** Induction on a JSON value, with the items of an array and the members
    of an object as induction hypotheses. *)
Lemma json_ind (P : json -> Prop) :
  P JNull ->
  (forall b, P (JBool b)) ->
  (forall m e, P (JNumber m e)) ->
  (forall s, P (JString s)) ->
  (forall items, Forall P items -> P (JArray items)) ->
  (forall members,
      Forall (fun kv => P (snd kv)) members -> P (JObject members)) ->
  forall v, P v.
Proof.
  intros Hnull Hbool Hnum Hstr Harr Hobj.
  fix IH 1. intros [| b | m e | s | items | members].
  - exact Hnull.
  - apply Hbool.
  - apply Hnum.
  - apply Hstr.
  - apply Harr. induction items as [| x l IHl]; constructor;
      [apply IH | exact IHl].
  - apply Hobj. induction members as [| [k x] l IHl]; constructor;
      [apply IH | exact IHl].
Qed.

(** The text of a value starts with a byte that is neither white space
    nor a closing bracket. *)
Lemma value_start_not_ws (c : ascii) :
  value_start c = true ->
  is_ws c = false /\ Ascii.eqb c "]" = false /\ Ascii.eqb c "}" = false.
Proof.
  byte_facts c.
Qed.

Lemma print_head (v : json) (rest : bytes) :
  exists c r, print v ++ rest = c :: r /\ value_start c = true.
Proof.
  destruct v as [| [] | m e | s | items | members]; simpl;
    try (eexists; eexists; split; [reflexivity | reflexivity]).
  unfold print_number, print_Z.
  destruct (Z.to_int m) as [u | u] eqn:E; simpl.
  - pose proof (canonical_Z m) as Hc. rewrite E in Hc. simpl in Hc.
    rewrite <- !app_assoc.
    destruct (uint_bytes_head u
                ((if (e =? 0)%Z then [] else "e"%char :: int_bytes (Z.to_int e))
                   ++ rest) Hc)
      as (c & r & -> & Hd).
    exists c, r. split; [reflexivity |].
    unfold value_start. rewrite Hd. now rewrite !orb_true_r.
  - eexists; eexists; split; reflexivity.
Qed.

Lemma skip_ws_value (c : ascii) (r : bytes) :
  value_start c = true -> skip_ws (c :: r) = c :: r.
Proof.
  intros H. apply value_start_not_ws in H as (H & _). simpl. now rewrite H.
Qed.

Lemma parse_value_number (f : nat) (c : ascii) (r : bytes) :
  Ascii.eqb c "-" || is_digit c = true ->
  parse_value (S f) (c :: r) = parse_number (c :: r).
Proof.
  each_byte c; intros H; try (vm_compute in H; discriminate H); reflexivity.
Qed.

(** The readers of items and members, unfolded once. *)
Lemma parse_elems_S (f : nat) (s : bytes) :
  parse_elems (S f) s =
  match parse_value f s with
  | None => None
  | Some (v, r) =>
      match skip_ws r with
      | [] => None
      | c :: r' =>
          if Ascii.eqb c "," then
            match parse_elems f r' with
            | Some (vs, r'') => Some (v :: vs, r'')
            | None => None
            end
          else if Ascii.eqb c "]" then Some ([v], r')
          else None
      end
  end.
Proof. reflexivity. Qed.

(** The items of an array are read back, given that each of them is. *)
Lemma parse_elems_print (l : list json) :
  Forall reads_back l ->
  forall (x : json) (fuel : nat) (rest : bytes),
    reads_back x ->
    S (json_size x) + list_sum (List.map (fun y => S (json_size y)) l)
      <= fuel ->
    parse_elems fuel (print x ++ tail_items l ++ "]"%char :: rest)
    = Some (x :: l, rest).
Proof.
  induction 1 as [| y l Hy Hl IH]; intros x fuel rest Hx Hfuel;
    (destruct fuel as [| f]; [lia |]); rewrite parse_elems_S.
  - simpl in *. rewrite Hx by (reflexivity || lia). reflexivity.
  - cbn [tail_items List.map flat_map] in *. fold (tail_items l).
    rewrite Hx by (reflexivity || (simpl in Hfuel; lia)).
    rewrite <- !app_assoc.
    read_byte.
    rewrite IH by (assumption || (simpl in Hfuel |- *; lia)).
    reflexivity.
Qed.

Lemma parse_members_S (f : nat) (s : bytes) :
  parse_members (S f) s =
  match skip_ws s with
  | [] => None
  | q :: r =>
      if Ascii.eqb q "034" then
        match parse_string_body r with
        | None => None
        | Some (k, r1) =>
            match skip_ws r1 with
            | [] => None
            | c :: r2 =>
                if Ascii.eqb c ":" then
                  match parse_value f r2 with
                  | None => None
                  | Some (v, r3) =>
                      match skip_ws r3 with
                      | [] => None
                      | c' :: r4 =>
                          if Ascii.eqb c' "," then
                            match parse_members f r4 with
                            | Some (ms, r5) => Some ((k, v) :: ms, r5)
                            | None => None
                            end
                          else if Ascii.eqb c' "}" then Some ([(k, v)], r4)
                          else None
                      end
                  end
                else None
            end
        end
      else None
  end.
Proof. reflexivity. Qed.

(** The members of an object are read back, given that the value of each
    of them is. *)
Lemma parse_members_print (l : list (string * json)) :
  Forall (fun kv => reads_back (snd kv)) l ->
  forall (k : string) (x : json) (fuel : nat) (rest : bytes),
    reads_back x ->
    S (json_size x) + list_sum (List.map (fun kv => S (json_size (snd kv))) l)
      <= fuel ->
    parse_members fuel
      (print_member (k, x) ++ tail_members l ++ "}"%char :: rest)
    = Some ((k, x) :: l, rest).
Proof.
  induction 1 as [| [k' y] l Hy Hl IH]; intros k x fuel rest Hx Hfuel;
    (destruct fuel as [| f]; [lia |]); rewrite parse_members_S;
    unfold print_member, print_string; cbn [fst snd];
    read_byte;
    rewrite <- !app_assoc; cbn [app];
    rewrite parse_string_print;
    read_byte.
  - simpl in *. rewrite Hx by (reflexivity || lia). reflexivity.
  - cbn [tail_members List.map flat_map] in *. fold (tail_members l).
    rewrite Hx by (reflexivity || (simpl in Hfuel; lia)).
    rewrite <- !app_assoc.
    read_byte.
    rewrite IH by (assumption || (simpl in Hfuel |- *; lia)).
    reflexivity.
Qed.

Lemma parse_value_array (f : nat) (x : json) (tl : bytes) :
  parse_value (S f) ("["%char :: print x ++ tl)
  = match parse_elems f (print x ++ tl) with
    | Some (vs, r) => Some (JArray vs, r)
    | None => None
    end.
Proof.
  destruct (print_head x tl) as (c & r & E & Hc). rewrite E.
  destruct (value_start_not_ws c Hc) as (Hws & Hb & _).
  cbn [parse_value skip_ws is_ws Ascii.eqb orb Bool.eqb]. cbv iota.
  cbn [skip_ws]. rewrite Hws, Hb. reflexivity.
Qed.

Lemma parse_value_object (f : nat) (kv : string * json) (tl : bytes) :
  parse_value (S f) ("{"%char :: print_member kv ++ tl)
  = match parse_members f (print_member kv ++ tl) with
    | Some (ms, r) => Some (JObject ms, r)
    | None => None
    end.
Proof.
  unfold print_member, print_string. rewrite <- !app_assoc.
  reflexivity.
Qed.

(** [parse_value] reads back every value that [print] wrote, and stops
    right behind its text. *)
Theorem parse_value_print (v : json) : reads_back v.
Proof.
  induction v as [| b | m e | s | items IH | members IH] using json_ind;
    intros fuel rest Hfuel Hrest;
    (destruct fuel as [| f]; [simpl in Hfuel; lia |]).
  - reflexivity.
  - destruct b; reflexivity.
  - destruct (print_head (JNumber m e) rest) as (c & r & E & Hc).
    cbn [print] in *. rewrite E.
    rewrite parse_value_number.
    + rewrite <- E. apply parse_number_print, Hrest.
    + revert E. unfold print_number, print_Z.
      pose proof (canonical_Z m) as Hcan.
      destruct (Z.to_int m) as [u | u]; cbn [int_bytes int_digits] in *.
      * rewrite <- app_assoc. intros E.
        destruct (uint_bytes_head u
                    ((if (e =? 0)%Z then []
                      else "e"%char :: int_bytes (Z.to_int e)) ++ rest)
                    Hcan) as (c' & r' & E' & Hd).
        rewrite E' in E. injection E as <- _. rewrite Hd. apply orb_true_r.
      * simpl. intros E. injection E as <- _. reflexivity.
  - cbn [print]. unfold print_string.
    cbn [app parse_value skip_ws is_ws Ascii.eqb orb Bool.eqb]. cbv iota.
    rewrite <- app_assoc. cbn [app].
    rewrite parse_string_print. reflexivity.
  - destruct IH as [| x l Hx Hl].
    + reflexivity.
    + cbn [print List.map sep_by_comma app]. rewrite <- !app_assoc.
      cbn [app].
      rewrite parse_value_array.
      change (flat_map _ (List.map print l)) with (tail_items l).
      rewrite parse_elems_print; [reflexivity | assumption .. |].
      simpl in Hfuel. lia.
  - destruct IH as [| [k x] l Hx Hl].
    + reflexivity.
    + cbn [print List.map sep_by_comma].
      change (print_string (fst (k, x)) ++ ":"%char :: print (snd (k, x)))
        with (print_member (k, x)).
      change (flat_map _ (List.map _ l)) with (tail_members l).
      cbn [app]. rewrite <- !app_assoc. cbn [app].
      rewrite parse_value_object.
      rewrite parse_members_print; [reflexivity | assumption .. |].
      simpl in Hfuel. lia.
Qed.

(** ** Fuel *)

(** The text of a value has at least as many bytes as reading it takes
    fuel, so the fuel [parse_json] gives is enough. *)
Lemma print_nonempty (v : json) : 1 <= length (print v).
Proof.
  destruct (print_head v []) as (c & r & E & _).
  rewrite app_nil_r in E. rewrite E. simpl. lia.
Qed.

Lemma length_tail_items (l : list json) :
  Forall (fun y => json_size y <= length (print y)) l ->
  list_sum (List.map (fun y => S (json_size y)) l) <= length (tail_items l).
Proof.
  induction 1 as [| y l Hy Hl IH]; [reflexivity |].
  unfold tail_items, list_sum in *.
  cbn [List.map flat_map list_sum fold_right app length].
  rewrite length_app. lia.
Qed.

Lemma length_tail_members (l : list (string * json)) :
  Forall (fun kv => json_size (snd kv) <= length (print (snd kv))) l ->
  list_sum (List.map (fun kv => S (json_size (snd kv))) l)
  <= length (tail_members l).
Proof.
  induction 1 as [| [k y] l Hy Hl IH]; [reflexivity |].
  unfold tail_members, list_sum in *.
  cbn [List.map flat_map list_sum fold_right app length fst snd] in *.
  rewrite length_app. unfold print_member at 1. cbn [fst snd].
  rewrite length_app. cbn [length]. lia.
Qed.

Lemma json_size_le_length (v : json) : json_size v <= length (print v).
Proof.
  induction v as [| b | m e | s | items IH | members IH] using json_ind;
    try apply (print_nonempty _).
  - destruct IH as [| x l Hx Hl]; [simpl; lia |].
    pose proof (length_tail_items l Hl) as Ht. unfold list_sum in Ht.
    cbn [print List.map sep_by_comma json_size list_sum fold_right].
    change (flat_map _ (List.map print l)) with (tail_items l).
    repeat first [rewrite length_app | progress cbn [length app]]. lia.
  - destruct IH as [| [k x] l Hx Hl]; [simpl; lia |].
    pose proof (length_tail_members l Hl) as Ht. unfold list_sum in Ht.
    cbn [print List.map sep_by_comma json_size list_sum fold_right].
    change (print_string (fst (k, x)) ++ ":"%char :: print (snd (k, x)))
      with (print_member (k, x)).
    change (flat_map _ (List.map _ l)) with (tail_members l).
    unfold print_member. cbn [fst snd] in *.
    repeat first [rewrite length_app | progress cbn [length app]]. lia.
Qed.

(** A body that holds the text of a value parses to that value. *)
Theorem parse_json_print (v : json) : parse_json (print v) = Some v.
Proof.
  unfold parse_json.
  rewrite <- (app_nil_r (print v)) at 2.
  rewrite parse_value_print; [reflexivity | | reflexivity].
  pose proof (json_size_le_length v). lia.
Qed.

(** ** Envelopes *)
Lemma id_of_to_json (i : RequestID) : id_of_json (id_to_json i) = Some i.
Proof. destruct i; reflexivity. Qed.

Lemma error_of_to_json (e : ResponseError) :
  error_of_json (error_to_json e) = Some e.
Proof. destruct e as [c m [d |]]; reflexivity. Qed.

(** The object of an envelope is classified as that envelope. *)
Theorem classify_to_json (E : Envelope) : classify (to_json E) = Ok E.
Proof.
  destruct E as [i m p | i [r | e] | m p];
    cbn - [id_of_json error_of_json id_to_json error_to_json];
    rewrite ?id_of_to_json, ?error_of_to_json; reflexivity.
Qed.

(** ** Framing *)

(** A line without carriage return is read up to its CRLF. *)
Lemma read_line_crlf (l rest : bytes) :
  no_cr l = true -> read_line (l ++ crlf ++ rest) = Some (l, rest).
Proof.
  induction l as [| c l IH]; intros H; [reflexivity |].
  simpl in H. apply andb_true_iff in H as [Hc Hl].
  apply negb_true_iff in Hc.
  cbn [app read_line].
  destruct (l ++ crlf ++ rest) as [| c' r'] eqn:E.
  - destruct l; discriminate E.
  - rewrite Hc. cbn [andb]. rewrite IH by assumption. reflexivity.
Qed.

Lemma uint_bytes_digits (u : Decimal.uint) :
  forallb is_digit (uint_bytes u) = true.
Proof. induction u; simpl; auto. Qed.

Lemma digit_not_blank (c : ascii) :
  is_digit c = true -> Ascii.eqb c "013" = false /\ Ascii.eqb c " " = false.
Proof.
  byte_facts c.
Qed.

Lemma uint_bytes_no_cr (u : Decimal.uint) : no_cr (uint_bytes u) = true.
Proof.
  unfold no_cr. pose proof (uint_bytes_digits u) as H.
  induction (uint_bytes u) as [| c l IH]; [reflexivity |].
  simpl in *. apply andb_true_iff in H as [Hc Hl].
  apply digit_not_blank in Hc as [-> _]. simpl. auto.
Qed.

Lemma skip_spaces_digits (u : Decimal.uint) :
  skip_spaces (uint_bytes u) = uint_bytes u.
Proof.
  pose proof (uint_bytes_digits u) as H.
  destruct (uint_bytes u) as [| c l]; [reflexivity |].
  simpl in *. apply andb_true_iff in H as [Hc _].
  apply digit_not_blank in Hc as [_ ->]. reflexivity.
Qed.

(** The header that [frame] writes is read as the length it states. *)
Lemma parse_header_length (n : nat) :
  parse_header (lit "Content-Length: " ++ print_nat n) = ContentLength n.
Proof.
  unfold parse_header, print_nat.
  cbn [lit list_ascii_of_string app expect_lit Ascii.eqb Bool.eqb].
  cbv iota. cbn [skip_spaces Ascii.eqb Bool.eqb]. cbv iota.
  rewrite skip_spaces_digits.
  rewrite <- (app_nil_r (uint_bytes _)).
  rewrite take_digits_uint_bytes by reflexivity.
  pose proof (canonical_not_nil _ (canonical_N (N.of_nat n))) as Hn.
  rewrite DecimalN.Unsigned.of_to, Nat2N.id.
  destruct (N.to_uint (N.of_nat n)); [congruence | reflexivity ..].
Qed.

Lemma read_headers_frame (n f : nat) (tl : bytes) :
  read_headers (S (S f)) None
    (lit "Content-Length: " ++ print_nat n ++ crlf ++ crlf ++ tl)
  = Ok (n, tl).
Proof.
  cbn [read_headers].
  rewrite (app_assoc (lit _) (print_nat n)).
  rewrite read_line_crlf.
  - rewrite parse_header_length.
    cbn [lit list_ascii_of_string app].
    change (read_line (crlf ++ tl)) with (Some (@nil ascii, tl)).
    reflexivity.
  - unfold no_cr. rewrite forallb_app. apply andb_true_iff. split.
    + reflexivity.
    + apply uint_bytes_no_cr.
Qed.

(** [decode] on a frame: it takes the body, and only the body, out of the
    stream. *)
Theorem decode_frame (body rest : bytes) :
  decode (frame body ++ rest)
  = match parse_json body with
    | None => Err ParseError
    | Some v =>
        match classify v with
        | Ok E => Ok (E, rest)
        | Err e => Err e
        end
    end.
Proof.
  unfold decode, frame.
  rewrite <- !app_assoc.
  destruct (length (lit "Content-Length: " ++ print_nat (length body)
                      ++ crlf ++ crlf ++ body ++ rest))
    as [| [| f]] eqn:E.
  - discriminate E.
  - rewrite !length_app in E. simpl in E. lia.
  - rewrite read_headers_frame.
    rewrite length_app.
    replace (length body <=? length body + length rest)%nat with true
      by (symmetry; apply Nat.leb_le; lia).
    rewrite firstn_app, Nat.sub_diag, firstn_all, firstn_O, app_nil_r.
    rewrite skipn_app, Nat.sub_diag, skipn_all, skipn_O.
    reflexivity.
Qed.

(** [decode] reads back an encoded envelope and leaves the bytes behind
    it in the stream. *)
Theorem decode_behind_encode (E : Envelope) (rest : bytes) :
  decode (encode E ++ rest) = Ok (E, rest).
Proof.
  unfold encode. rewrite decode_frame, parse_json_print, classify_to_json.
  reflexivity.
Qed.

(** C5: for every envelope E, decoding the encoding of E yields E again,
    with nothing left over: [encode] writes the Content-Length header with
    the byte count of the JSON body, a blank line and the body, and
    [decode] reads the header, takes exactly that many bytes (what follows
    the frame in the stream is left untouched), parses them and classifies
    the object as the request, response or notification it was. *)
Theorem decode_encode_roundtrip (E : Envelope) :
  encode E
  = lit "Content-Length: " ++ print_nat (length (print (to_json E)))
      ++ crlf ++ crlf ++ print (to_json E)
  /\ decode (encode E) = Ok (E, [])
  /\ forall rest : bytes, decode (encode E ++ rest) = Ok (E, rest).
Proof.
  split; [reflexivity | split].
  - rewrite <- (app_nil_r (encode E)). apply decode_behind_encode.
  - apply decode_behind_encode.
Qed.

(** The request of the scenario: its body has 51 bytes, and it is read back
    from its frame; behind a header that announces 47 bytes the body is cut
    short and does not parse. *)
Example scenario_request_roundtrip :
  length (print (to_json scenario_request)) = 51
  /\ decode (encode scenario_request) = Ok (scenario_request, [])
  /\ decode (lit "Content-Length: 47" ++ crlf ++ crlf
               ++ print (to_json scenario_request))
     = Err ParseError.
Proof. repeat split; vm_compute; reflexivity. Qed.

Example scenario_response_roundtrip :
  decode (encode scenario_response) = Ok (scenario_response, []).
Proof. vm_compute. reflexivity. Qed.

Example sample_notification_roundtrip :
  decode (encode sample_notification ++ encode scenario_request)
  = Ok (sample_notification, encode scenario_request).
Proof. vm_compute. reflexivity. Qed.

(** The three failures of [decode], and a header that is ignored. *)
Example decode_failures :
  decode (lit "Content-Type: x" ++ crlf ++ crlf ++ lit "null")
    = Err FramingError
  /\ decode (firstn 30 (encode scenario_request)) = Err FramingError
  /\ decode (frame (lit "{")) = Err ParseError
  /\ decode (frame (print result_and_error)) = Err ProtocolError
  /\ decode (lit "Content-Type: x" ++ crlf ++ encode scenario_request)
     = Ok (scenario_request, []).
Proof. repeat split; vm_compute; reflexivity. Qed.

(* ===================================================================== *)
(** * Part VI: properties of the package as a whole                       *)
(* ===================================================================== *)

(** ** From the list of declarations to the lookups *)

Lemma lookup_type_In (ds : list Decl) (n : string) (spec : TypeSpec) :
  lookup_type ds n = Some spec -> In (TypeDecl n spec) ds.
Proof.
  induction ds as [| d ds IH]; simpl; [discriminate |].
  destruct d as [c ty v | n' spec' | x ty | f | r f]; auto.
  destruct (String.eqb_spec n' n) as [-> | _]; auto.
  intros [= ->]. now left.
Qed.

Lemma lookup_const_In (ds : list Decl) (n : string) (ty : option string)
    (v : ConstExpr) :
  lookup_const ds n = Some (ty, v) -> In (ConstDecl n ty v) ds.
Proof.
  induction ds as [| d ds IH]; simpl; [discriminate |].
  destruct d as [c ty' v' | n' spec' | x ty' | f | r f]; auto.
  destruct (String.eqb_spec c n) as [-> | _]; auto.
  intros [= -> ->]. now left.
Qed.

Lemma field_of_all_fields (ds : list Decl) (ty name : string) (f : Field) :
  field_of ds ty name = Some f ->
  In (ty, f) (all_fields ds) /\ field_name f = name.
Proof.
  unfold field_of, struct_fields.
  destruct (lookup_type ds ty) as [[u | fs] |] eqn:E; try discriminate.
  intros Hf. apply List.find_some in Hf as [Hin Hname].
  apply String.eqb_eq in Hname. split; [| exact Hname].
  apply List.in_flat_map. exists (TypeDecl ty (Struct fs)).
  split; [now apply lookup_type_In | now apply List.in_map].
Qed.

(** A check that holds of the listed declarations holds of whatever the
    lookups find. *)
Lemma checked_fields (P : string -> Field -> bool) (ds : list Decl) :
  forallb (fun sf => P (fst sf) (snd sf)) (all_fields ds) = true ->
  forall ty name f, field_of ds ty name = Some f ->
    P ty f = true /\ field_name f = name.
Proof.
  intros H ty name f Hf. apply field_of_all_fields in Hf as [Hin Hname].
  split; [| exact Hname].
  exact (proj1 (List.forallb_forall _ _) H (ty, f) Hin).
Qed.

Lemma checked_types (P : string -> TypeSpec -> bool) (ds : list Decl) :
  forallb (fun d => match d with TypeDecl n spec => P n spec | _ => true end)
    ds = true ->
  forall n spec, lookup_type ds n = Some spec -> P n spec = true.
Proof.
  intros H n spec Hn. apply lookup_type_In in Hn.
  exact (proj1 (List.forallb_forall _ _) H _ Hn).
Qed.

Lemma checked_consts (P : string -> option string -> ConstExpr -> bool)
    (ds : list Decl) :
  forallb (fun d => match d with ConstDecl n ty v => P n ty v | _ => true end)
    ds = true ->
  forall n ty v, lookup_const ds n = Some (ty, v) -> P n ty v = true.
Proof.
  intros H n ty v Hn. apply lookup_const_In in Hn.
  exact (proj1 (List.forallb_forall _ _) H _ Hn).
Qed.

Lemma uses_inv (ds : list Decl) (n m : string) :
  uses ds n m = true ->
  exists spec, lookup_type ds n = Some spec /\ In m (spec_refs spec).
Proof.
  unfold uses. destruct (lookup_type ds n) as [spec |]; [| discriminate].
  intros H. apply List.existsb_exists in H as (k & Hk & E).
  apply String.eqb_eq in E. subst k. eauto.
Qed.

(** X1: the package is closed under its type references: whenever the
    declaration of a type mentions a type by name (in a field, an element
    or key type, or an underlying type), that type is declared in the
    package. *)
Theorem type_references_declared (n m : string) :
  uses pkg n m = true -> exists spec, lookup_type pkg m = Some spec.
Proof.
  intros H. apply uses_inv in H as (spec & Hn & Hm).
  pose proof
    (checked_types
       (fun _ s =>
          forallb (fun k => match lookup_type pkg k with
                            | Some _ => true
                            | None => false
                            end) (spec_refs s))
       pkg eq_refl n spec Hn) as Hc.
  cbv beta in Hc.
  pose proof (proj1 (List.forallb_forall _ _) Hc m Hm) as Hd.
  cbv beta in Hd.
  destruct (lookup_type pkg m) as [s |]; [eauto | discriminate].
Qed.

Lemma type_references_declared_witness :
  uses pkg "Diagnostic" "DiagnosticSeverity" = true
  /\ exists spec, lookup_type pkg "DiagnosticSeverity" = Some spec.
Proof.
  split; [reflexivity |].
  apply (type_references_declared "Diagnostic" "DiagnosticSeverity").
  reflexivity.
Defined.

Lemma rank_decreases (n m : string) :
  uses pkg n m = true -> rank pkg m < rank pkg n.
Proof.
  intros H. apply uses_inv in H as (spec & Hn & Hm).
  pose proof
    (checked_types
       (fun n s =>
          forallb (fun k => Nat.ltb (rank pkg k) (rank pkg n)) (spec_refs s))
       pkg) as Hc.
  cbv beta in Hc. specialize (Hc ltac:(vm_compute; reflexivity) n spec Hn).
  pose proof (proj1 (List.forallb_forall _ _) Hc m Hm) as Hd.
  now apply Nat.ltb_lt in Hd.
Qed.

Lemma reaches_rank (steps : nat) :
  forall n m, reaches pkg steps n m = true -> rank pkg m < rank pkg n.
Proof.
  induction steps as [| steps IH]; intros n m H; [discriminate |].
  cbn [reaches] in H.
  destruct (lookup_type pkg n) as [spec |] eqn:Hn; [| discriminate].
  apply List.existsb_exists in H as (k & Hk & Hm).
  assert (Hnk : rank pkg k < rank pkg n).
  { apply rank_decreases. unfold uses. rewrite Hn.
    apply List.existsb_exists. exists k. split; [exact Hk |].
    apply String.eqb_refl. }
  apply orb_true_iff in Hm as [E | Hr].
  - apply String.eqb_eq in E. now subst k.
  - specialize (IH k m Hr). lia.
Qed.

(** X2: no type of the package is recursive: following the types that the
    declarations mention, by any number of steps and also through pointers,
    slices and maps, never leads from a type back to itself; the types
    nest at most six deep. *)
Theorem no_recursive_type :
  (forall (steps : nat) (n : string), reaches pkg steps n n = false)
  /\ Forall (fun n => 1 <= rank pkg n <= 6) (type_names pkg).
Proof.
  split.
  - intros steps n. destruct (reaches pkg steps n n) eqn:E; [| reflexivity].
    apply reaches_rank in E. lia.
  - apply List.Forall_forall. intros n Hn.
    assert (Hb : forallb
                   (fun n => Nat.leb 1 (rank pkg n) && Nat.leb (rank pkg n) 6)
                   (type_names pkg) = true) by (vm_compute; reflexivity).
    pose proof (proj1 (List.forallb_forall _ _) Hb n Hn) as H. cbv beta in H.
    apply andb_true_iff in H as [H1 H2].
    apply Nat.leb_le in H1, H2. lia.
Qed.



(** X4: every field that is not embedded carries a JSON tag, and the key
    in the tag starts with a lower-case letter: no field goes on the wire
    under its Go name, and none is tagged "-". *)
Theorem named_fields_tagged (ty name : string) (f : Field) :
  field_of pkg ty name = Some f ->
  field_embedded f = false ->
  exists t, field_tag f = Some t /\ lower_initial (tag_name t) = true.
Proof.
  intros Hf He.
  destruct (checked_fields
              (fun _ f =>
                 field_embedded f
                 || match field_tag f with
                    | Some t => lower_initial (tag_name t)
                    | None => false
                    end)
              pkg ltac:(vm_compute; reflexivity) ty name f Hf) as [H _].
  cbv beta in H. rewrite He in H. cbn [orb] in H.
  destruct (field_tag f) as [t |]; [eauto | discriminate].
Qed.

Lemma named_fields_tagged_witness :
  field_of pkg "TextEdit" "NewText" = Some (fld "NewText" TString "newText")
  /\ field_embedded (fld "NewText" TString "newText") = false
  /\ exists t, field_tag (fld "NewText" TString "newText") = Some t
               /\ lower_initial (tag_name t) = true.
Proof.
  split; [reflexivity | split; [reflexivity |]].
  apply (named_fields_tagged "TextEdit" "NewText"); reflexivity.
Defined.

(** X5: within a struct no two fields have the same name and no two have
    the same JSON key, also counting the keys that an embedded struct
    contributes; so every field has a key of its own and none is shadowed
    on the wire. *)
Theorem struct_keys_unique (ty : string) (fs : list Field) :
  struct_fields pkg ty = Some fs ->
  List.NoDup (List.map field_name fs)
  /\ List.NoDup (wire_keys pkg 1 ty)
  /\ length fs <= length (wire_keys pkg 1 ty).
Proof.
  unfold struct_fields.
  destruct (lookup_type pkg ty) as [[u | fs'] |] eqn:E; try discriminate.
  intros [= ->].
  pose (P := fun (n : string) (s : TypeSpec) =>
               match s with
               | Struct fs =>
                   bool_decide (NoDup (List.map field_name fs))
                   && bool_decide (NoDup (wire_keys pkg 1 n))
                   && Nat.leb (length fs) (length (wire_keys pkg 1 n))
               | Defined _ => true
               end).
  assert (Hall : forallb (fun d => match d with
                                   | TypeDecl n spec => P n spec
                                   | _ => true
                                   end) pkg = true)
    by (vm_compute; reflexivity).
  pose proof (checked_types P pkg Hall ty (Struct fs) E) as H. subst P.
  cbv beta iota in H.
  apply andb_true_iff in H as [H H3]. apply andb_true_iff in H as [H1 H2].
  apply bool_decide_eq_true in H1, H2. apply Nat.leb_le in H3.
  repeat split; [now apply NoDup_ListNoDup .. | exact H3].
Qed.

Lemma struct_keys_unique_witness :
  struct_fields pkg "VersionedTextDocumentIdentifier"
    = Some [embedded "TextDocumentIdentifier";
            fld "Version" (TPointer TUint64) "version"]
  /\ List.NoDup (List.map field_name
                   [embedded "TextDocumentIdentifier";
                    fld "Version" (TPointer TUint64) "version"])
  /\ List.NoDup (wire_keys pkg 1 "VersionedTextDocumentIdentifier")
  /\ length [embedded "TextDocumentIdentifier";
             fld "Version" (TPointer TUint64) "version"]
     <= length (wire_keys pkg 1 "VersionedTextDocumentIdentifier").
Proof.
  split; [reflexivity |].
  apply (struct_keys_unique "VersionedTextDocumentIdentifier").
  reflexivity.
Defined.

(** X6: [omitempty] is only put on fields where it has an effect: a field
    tagged [omitempty] has a string, number, pointer, slice, map or
    interface type (possibly behind a type name), never a struct type. *)
Theorem omitempty_has_effect (ty name : string) (f : Field) :
  field_of pkg ty name = Some f ->
  has_omitempty f = true ->
  exists k, kind_of pkg 1 (field_type f) = Some k /\ has_empty_value k = true.
Proof.
  intros Hf Ho.
  destruct (checked_fields
              (fun _ f =>
                 negb (has_omitempty f)
                 || match kind_of pkg 1 (field_type f) with
                    | Some k => has_empty_value k
                    | None => false
                    end)
              pkg ltac:(vm_compute; reflexivity) ty name f Hf) as [H _].
  cbv beta in H. rewrite Ho in H. cbn [negb orb] in H.
  destruct (kind_of pkg 1 (field_type f)) as [k |]; [eauto | discriminate].
Qed.

Lemma omitempty_has_effect_witness :
  field_of pkg "Diagnostic" "Severity"
    = Some (fld_omitempty "Severity" (TNamed "DiagnosticSeverity") "severity")
  /\ has_omitempty
       (fld_omitempty "Severity" (TNamed "DiagnosticSeverity") "severity")
     = true
  /\ exists k,
       kind_of pkg 1 (TNamed "DiagnosticSeverity") = Some k
       /\ has_empty_value k = true.
Proof.
  split; [reflexivity | split; [reflexivity |]].
  apply (omitempty_has_effect "Diagnostic" "Severity"
           (fld_omitempty "Severity" (TNamed "DiagnosticSeverity") "severity"));
    reflexivity.
Defined.

(** X7: the only pointer field without [omitempty] is the Version of
    VersionedTextDocumentIdentifier: a nil pointer is left out of the JSON
    object everywhere else, and written (as null) only for that field. *)
Theorem nil_pointer_written_only_for_version (ty name : string) (f : Field) :
  field_of pkg ty name = Some f ->
  kind_of pkg 1 (field_type f) = Some KPointer ->
  has_omitempty f = false ->
  ty = "VersionedTextDocumentIdentifier" /\ name = "Version".
Proof.
  intros Hf Hk Ho.
  destruct (checked_fields
              (fun ty f =>
                 match kind_of pkg 1 (field_type f) with
                 | Some KPointer =>
                     has_omitempty f
                     || (String.eqb ty "VersionedTextDocumentIdentifier"
                         && String.eqb (field_name f) "Version")
                 | _ => true
                 end)
              pkg ltac:(vm_compute; reflexivity) ty name f Hf) as [H <-].
  cbv beta in H. rewrite Hk, Ho in H. cbn [orb] in H.
  apply andb_true_iff in H as [H1 H2].
  now apply String.eqb_eq in H1, H2.
Qed.

Lemma nil_pointer_written_only_for_version_witness :
  field_of pkg "VersionedTextDocumentIdentifier" "Version"
    = Some (fld "Version" (TPointer TUint64) "version")
  /\ kind_of pkg 1 (TPointer TUint64) = Some KPointer
  /\ has_omitempty (fld "Version" (TPointer TUint64) "version") = false
  /\ "VersionedTextDocumentIdentifier" = "VersionedTextDocumentIdentifier"
  /\ "Version" = "Version".
Proof.
  split; [reflexivity | split; [reflexivity | split; [reflexivity |]]].
  apply (nil_pointer_written_only_for_version
           "VersionedTextDocumentIdentifier" "Version"
           (fld "Version" (TPointer TUint64) "version")); reflexivity.
Defined.

(** X8: the JSON key of a field is the field's Go name up to the case of
    the letters, with exactly two exceptions: TargetSelectionRange of
    LocationLink has the key "targetSeletionRange", and Related of
    Diagnostic has the key "relatedInformation".  A field has a key that
    differs from its name if and only if it is one of these two, with
    that key. *)
Theorem json_key_differs_exactly_twice (ty name key : string) :
  json_key pkg ty name = Some key /\ same_fold key name = false
  <->
  (ty = "LocationLink" /\ name = "TargetSelectionRange"
   /\ key = "targetSeletionRange")
  \/ (ty = "Diagnostic" /\ name = "Related" /\ key = "relatedInformation").
Proof.
  split.
  - intros [Hk Hdiff]. unfold json_key in Hk.
    destruct (field_of pkg ty name) as [f |] eqn:Hf; [| discriminate].
    destruct (field_tag f) as [t |] eqn:Ht; [| discriminate].
    injection Hk as <-.
    destruct (checked_fields
                (fun ty f =>
                   match field_tag f with
                   | Some t =>
                       same_fold (tag_name t) (field_name f)
                       || (String.eqb ty "LocationLink"
                           && String.eqb (field_name f) "TargetSelectionRange"
                           && String.eqb (tag_name t) "targetSeletionRange")
                       || (String.eqb ty "Diagnostic"
                           && String.eqb (field_name f) "Related"
                           && String.eqb (tag_name t) "relatedInformation")
                   | None => true
                   end)
                pkg ltac:(vm_compute; reflexivity) ty name f Hf) as [H <-].
    cbv beta in H. rewrite Ht, Hdiff in H. cbn [orb] in H.
    apply orb_true_iff in H as [H | H];
      apply andb_true_iff in H as [H H3];
      apply andb_true_iff in H as [H1 H2];
      apply String.eqb_eq in H1, H2, H3; auto.
  - intros [(-> & -> & ->) | (-> & -> & ->)]; split; reflexivity.
Qed.

(** X9: every constant declared with a type is well typed: its type is a
    defined (non-struct) type of the package, and its literal fits the
    underlying type, a string for a string type and an integer that
    float64 holds exactly for a float64 type. *)
Theorem typed_constants_fit (name ty : string) (v : ConstExpr) :
  lookup_const pkg name = Some (Some ty, v) ->
  exists u, lookup_type pkg ty = Some (Defined u) /\ literal_fits v u = true.
Proof.
  intros Hc.
  pose proof
    (checked_consts
       (fun _ ty v =>
          match ty with
          | Some ty =>
              match lookup_type pkg ty with
              | Some (Defined u) => literal_fits v u
              | _ => false
              end
          | None => true
          end)
       pkg ltac:(vm_compute; reflexivity) name (Some ty) v Hc) as H.
  cbv beta iota in H.
  destruct (lookup_type pkg ty) as [[u | fs] |]; try discriminate. eauto.
Qed.

Lemma typed_constants_fit_witness :
  lookup_const pkg "SeverityHint" = Some (Some "DiagnosticSeverity", IntLit 4)
  /\ exists u, lookup_type pkg "DiagnosticSeverity" = Some (Defined u)
               /\ literal_fits (IntLit 4) u = true.
Proof.
  split; [reflexivity |].
  apply (typed_constants_fit "SeverityHint" "DiagnosticSeverity" (IntLit 4)).
  reflexivity.
Defined.
